(** * conda-rich: the [rich] reporter backend of conda

    A shallow embedding of [src/conda_rich/hooks.py] and the properties of
    its renderer and of its two progress bars.

    Conventions of the embedding:
    - a Python [str] is a [string]; [len] is [String.length];
    - a [dict] that is iterated is an association list in insertion order;
    - a raised exception is the left injection of a sum, [exn + A];
    - objects that are shared and mutated (the [rich.progress.Progress]
      widgets handed over by the host, the output sinks) live in a store
      and are named by their location;
    - a progress fraction is a rational number, and [fraction == 1] is
      [Qeq_bool]. *)

From Stdlib Require Import ZArith QArith Strings.String Strings.Ascii.
From Stdlib Require Import Numbers.DecimalString Lia.
From Stdlib Require Decimal DecimalZ.
From stdpp Require Import base option list strings gmap.

(** ** Exceptions *)

Inductive exn : Type :=
| ValueError
| TypeError
| KeyError
| AttributeError
| CondaError (message : string).

(** ** String formatting *)

(** The line feed, ["\n"]. *)
Definition nl : string := String "010"%char EmptyString.

Fixpoint spaces (n : nat) : string :=
  match n with
  | O => EmptyString
  | S n' => String " "%char (spaces n')
  end.

(** [format(s, ">w")]: the fill is put in front, and a string that is
    already [w] wide or wider comes out as it is. *)
Definition format_right (w : nat) (s : string) : string :=
  spaces (w - String.length s) +:+ s.

(** [format(s, "w")] for a [str], whose default alignment is to the left. *)
Definition format_left (w : nat) (s : string) : string :=
  s +:+ spaces (w - String.length s).

(** [sep.join(parts)]. *)
Definition join (sep : string) (parts : list string) : string :=
  String.concat sep parts.

(** The values of a details mapping, [str | int | bool], and what an
    f-string replacement field with no format spec makes of them.  [str]
    is the text itself, for an int of any size; the limit that an
    interpreter puts on the digits of an int it converts is the matter of
    [format_value] below. *)
Inductive value : Type :=
| VStr (s : string)
| VInt (z : Z)
| VBool (b : bool).

Definition str (v : value) : string :=
  match v with
  | VStr s => s
  | VInt z => NilZero.string_of_int (Z.to_int z)
  | VBool true => "True"
  | VBool false => "False"
  end.

(** [max(lengths)] of a sequence: [ValueError] when it is empty. *)
Definition py_max (xs : list nat) : exn + nat :=
  match xs with
  | [] => inl ValueError
  | x :: rest => inr (fold_left Nat.max rest x)
  end.

(** ** [RichReporterRenderer.detail_view] *)

Definition detail_row (longest_header : nat) (item : string * value) : string :=
  let '(header, v) := item in
  " " +:+ format_right longest_header header +:+ " : " +:+ str v.

Definition detail_view (data : list (string * value)) : exn + string :=
  let table_parts := [""] in
  match py_max (map String.length (map fst data)) with
  | inl e => inl e
  | inr longest_header =>
      let table_parts :=
        fold_left
          (fun parts item => parts ++ [detail_row longest_header item])
          data table_parts in
      let table_parts := table_parts ++ [nl] in
      inr (join nl table_parts)
  end.

(** ** [detail_view] under the limit on the digits of an int *)

(** The number of decimal digits of an int, its sign not counted. *)
Definition decimal_digits (z : Z) : nat :=
  String.length (str (VInt (Z.abs z))).

(** CPython 3.11 and later refuses to convert an int to a decimal string
    when the text, sign included, is longer than 640 characters and has
    more digits than the setting of [sys.set_int_max_str_digits], where 0
    switches the limit off. *)
Definition exceeds_max_str_digits (max_str_digits : nat) (z : Z) : bool :=
  let digits := decimal_digits z in
  let strlen := if (z <? 0)%Z then S digits else digits in
  (640 <? strlen) && (0 <? max_str_digits) && (max_str_digits <? digits).

(** The setting an interpreter starts with. *)
Definition default_max_str_digits : nat := 4300.

(** [format(value, "")] under the setting [max_str_digits]: a [ValueError]
    for an int with too many digits, the text of the value otherwise. *)
Definition format_value (max_str_digits : nat) (v : value) : exn + string :=
  match v with
  | VInt z =>
      if exceeds_max_str_digits max_str_digits z then inl ValueError
      else inr (str v)
  | _ => inr (str v)
  end.

(** The loop of [detail_view]: it appends row after row and ends at the
    first value that does not format. *)
Fixpoint detail_rows (max_str_digits longest_header : nat)
    (items : list (string * value)) (table_parts : list string)
  : exn + list string :=
  match items with
  | [] => inr table_parts
  | (header, v) :: rest =>
      match format_value max_str_digits v with
      | inl e => inl e
      | inr text =>
          detail_rows max_str_digits longest_header rest
            (table_parts
             ++ [" " +:+ format_right longest_header header +:+ " : "
                 +:+ text])
      end
  end.

(** [detail_view] on an interpreter with the setting [max_str_digits]. *)
Definition detail_view_limit (max_str_digits : nat)
    (data : list (string * value)) : exn + string :=
  let table_parts := [""] in
  match py_max (map String.length (map fst data)) with
  | inl e => inl e
  | inr longest_header =>
      match detail_rows max_str_digits longest_header data table_parts with
      | inl e => inl e
      | inr table_parts =>
          let table_parts := table_parts ++ [nl] in
          inr (join nl table_parts)
      end
  end.

(** ** [RichReporterRenderer.envs_list] *)

(** The attributes of conda's [context] that the renderer reads. *)
Record Context : Type := {
  active_prefix : option string;
  root_prefix : string;
  envs_dirs : list string;
  quiet : bool
}.

Section EnvsList.
(** Names imported from conda and from [os.path]. *)
Variable ROOT_ENV_NAME : string.
Variable paths_equal : string -> string -> bool.
Variable dirname : string -> string.
Variable basename : string -> string.
Variable context : Context.

(** [prefix == context.active_prefix], where the attribute may be [None]. *)
Definition is_active (prefix : string) : bool :=
  match active_prefix context with
  | Some a => String.eqb prefix a
  | None => false
  end.

Definition disp_env_active (prefix : string) : string :=
  if is_active prefix then "*" else " ".

Definition disp_env_name (prefix : string) : string :=
  if String.eqb prefix (root_prefix context) then ROOT_ENV_NAME
  else if existsb (fun envs_dir => paths_equal envs_dir (dirname prefix))
                  (envs_dirs context)
  then basename prefix
  else "".

Definition disp_env (prefix : string) : string :=
  let active := disp_env_active prefix in
  let name := disp_env_name prefix in
  format_left 20 name +:+ " " +:+ active +:+ " " +:+ prefix.

Definition envs_list (data : list string) : string :=
  let output := [""; "# conda environments:"; "#"] in
  let output :=
    fold_left (fun out env_prefix => out ++ [disp_env env_prefix])
              data output in
  let output := output ++ [nl] in
  join nl output.

(** The column of a row that holds the marker: the name field is at
    least 20 wide and one blank follows it. *)
Definition marker_column (prefix : string) : nat :=
  Nat.max 20 (String.length (disp_env_name prefix)) + 1.

(** Whether the rendered row of [prefix] carries ['*'] in that column. *)
Definition row_marked (prefix : string) : bool :=
  match String.get (marker_column prefix) (disp_env prefix) with
  | Some c => Ascii.eqb c "*"%char
  | None => false
  end.

(** The number of rendered rows that carry the marker. *)
Definition marked_rows (data : list string) : nat :=
  length (List.filter row_marked data).
End EnvsList.

(** os.path on a POSIX host, for concrete runs. *)
Fixpoint rfind_sep (p : string) (i : nat) (last : nat) : nat :=
  match p with
  | EmptyString => last
  | String c rest =>
      rfind_sep rest (S i) (if Ascii.eqb c "/"%char then S i else last)
  end.

Definition all_sep (s : string) : bool :=
  forallb (fun c => Ascii.eqb c "/"%char) (list_ascii_of_string s).

Fixpoint rstrip_sep (s : string) : string :=
  match s with
  | EmptyString => EmptyString
  | String c rest =>
      match rstrip_sep rest with
      | EmptyString =>
          if Ascii.eqb c "/"%char then EmptyString else String c EmptyString
      | r => String c r
      end
  end.

(** [posixpath.basename]: what follows the last separator. *)
Definition posix_basename (p : string) : string :=
  let i := rfind_sep p 0 0 in
  String.substring i (String.length p - i) p.

(** [posixpath.dirname]: what precedes the last separator, without its
    trailing separators unless it consists of separators only. *)
Definition posix_dirname (p : string) : string :=
  let i := rfind_sep p 0 0 in
  let head := String.substring 0 i p in
  if negb (String.eqb head "") && negb (all_sep head)
  then rstrip_sep head else head.

(** [paths_equal] on paths that are absolute and normalised already, where
    [abspath] changes nothing. *)
Definition posix_paths_equal (path1 path2 : string) : bool :=
  String.eqb path1 path2.

(** ** The part of [rich.progress] that the progress bar drives *)

Module rich.
(** A task of a [Progress] widget: the fields a caller sets through
    [add_task] and the keyword arguments of [update], and whether the task
    was started and stopped.  The widget's own bookkeeping of elapsed time
    and speed is left out. *)
Record Task : Type := {
  task_description : string;
  task_total : option Q;
  task_completed : Q;
  task_visible : bool;
  task_started : bool;
  task_stopped : bool
}.

(** [Progress._tasks], [Progress._task_index], and how often the live
    display was redrawn on request. *)
Record Progress : Type := {
  tasks : gmap nat Task;
  task_index : nat;
  refreshes : nat
}.

Definition refresh (p : Progress) : Progress :=
  {| tasks := tasks p; task_index := task_index p;
     refreshes := S (refreshes p) |}.

(** [Progress.add_task(description, total=total)]: the new task is
    started, visible and has nothing completed; its id is returned. *)
Definition add_task (description : string) (total : Q) (p : Progress)
  : nat * Progress :=
  let task := {| task_description := description;
                 task_total := Some total;
                 task_completed := 0;
                 task_visible := true;
                 task_started := true;
                 task_stopped := false |} in
  let new_task_index := task_index p in
  (new_task_index,
   refresh {| tasks := <[task_index p := task]> (tasks p);
              task_index := S (task_index p);
              refreshes := refreshes p |}).

Definition set_fields (completed : option Q) (visible : option bool)
    (t : Task) : Task :=
  {| task_description := task_description t;
     task_total := task_total t;
     task_completed := default (task_completed t) completed;
     task_visible := default (task_visible t) visible;
     task_started := task_started t;
     task_stopped := task_stopped t |}.

(** [Progress.update(task_id, completed=..., visible=...)]: an argument
    left at [None] leaves its field alone; an unknown id is a
    [KeyError]. *)
Definition update (task_id : nat) (completed : option Q)
    (visible : option bool) (p : Progress) : exn + Progress :=
  match tasks p !! task_id with
  | None => inl KeyError
  | Some t =>
      inr {| tasks := <[task_id := set_fields completed visible t]> (tasks p);
             task_index := task_index p;
             refreshes := refreshes p |}
  end.

(** [Progress.stop_task(task_id)].  Of the stop time only the fact that
    it is set is kept, not the time: a later call, which moves the stop
    time, shows no change here. *)
Definition stop_task (task_id : nat) (p : Progress) : exn + Progress :=
  match tasks p !! task_id with
  | None => inl KeyError
  | Some t =>
      let t' := {| task_description := task_description t;
                   task_total := task_total t;
                   task_completed := task_completed t;
                   task_visible := task_visible t;
                   task_started := true;
                   task_stopped := true |} in
      inr {| tasks := <[task_id := t']> (tasks p);
             task_index := task_index p;
             refreshes := refreshes p |}
  end.
End rich.

(** ** The store *)

(** What a location of the store holds: a [Progress] widget, or a context
    manager of some other type. *)
Inductive object : Type :=
| ObjProgress (p : rich.Progress)
| ObjOther.

(** [heap]: the objects the host hands over by reference.  [out]: for each
    output sink, the strings the adapter itself has written to it with
    [file.write], oldest first.  What a widget draws on its console, which
    the host may have built on the same file, is not recorded. *)
Record world : Type := {
  heap : gmap nat object;
  out : gmap nat (list string)
}.

Definition written (w : world) (sink : nat) : list string :=
  default [] (out w !! sink).

(** Statements run on the store and either return or raise; what was
    done before an exception stays done. *)
Definition M (A : Type) : Type := world -> (exn + A) * world.

Definition ret {A} (a : A) : M A := fun w => (inr a, w).
Definition raise {A} (e : exn) : M A := fun w => (inl e, w).
Definition bind {A B} (c : M A) (k : A -> M B) : M B :=
  fun w =>
    match c w with
    | (inl e, w') => (inl e, w')
    | (inr a, w') => k a w'
    end.

Notation "x <~ c ;; k" := (bind c (fun x => k))
  (at level 100, c at next level, right associativity).
Notation "c ;;; k" := (bind c (fun _ => k))
  (at level 100, right associativity).

(** [file.write(s)] on the file that entering the sink yields. *)
Definition write (sink : nat) (s : string) : M unit :=
  fun w =>
    (inr tt, {| heap := heap w;
                out := <[sink := written w sink ++ [s]]> (out w) |}).

(** [isinstance(obj, Progress)]. *)
Definition isinstance_Progress (w : world) (l : nat) : bool :=
  match heap w !! l with
  | Some (ObjProgress _) => true
  | _ => false
  end.

(** A method call on the widget at [l]; it mutates the widget in place.
    The drawing a method does on the widget's console is outside the
    store, so that [out] says nothing about it. *)
Definition call {A} (l : nat)
    (method : rich.Progress -> exn + (A * rich.Progress)) : M A :=
  fun w =>
    match heap w !! l with
    | Some (ObjProgress p) =>
        match method p with
        | inl e => (inl e, w)
        | inr (a, p') =>
            (inr a, {| heap := <[l := ObjProgress p']> (heap w);
                       out := out w |})
        end
    | _ => (inl AttributeError, w)
    end.

Definition progress_add_task (l : nat) (description : string) (total : Q)
  : M nat :=
  call l (fun p => inr (rich.add_task description total p)).

Definition progress_update (l task : nat) (completed : option Q)
    (visible : option bool) : M unit :=
  call l (fun p =>
    match rich.update task completed visible p with
    | inl e => inl e
    | inr p' => inr (tt, p')
    end).

Definition progress_stop_task (l task : nat) : M unit :=
  call l (fun p =>
    match rich.stop_task task p with
    | inl e => inl e
    | inr p' => inr (tt, p')
    end).

Definition progress_refresh (l : nat) : M unit :=
  call l (fun p => inr (tt, rich.refresh p)).

(** ** [QuietProgressBar] *)

(** The attributes [ProgressBarBase.__init__] sets; the keyword arguments
    it is handed besides are dropped. *)
Record QuietProgressBar : Type := {
  quiet_description : string;
  quiet_io_context_manager : nat
}.

Definition QuietProgressBar_init (description : string)
    (io_context_manager : nat) (kwargs : option (list nat))
  : M QuietProgressBar :=
  let self := {| quiet_description := description;
                 quiet_io_context_manager := io_context_manager |} in
  write (quiet_io_context_manager self)
        ("...downloading " +:+ description +:+ "..." +:+ nl) ;;;
  ret self.

Definition QuietProgressBar_update_to (self : QuietProgressBar)
    (fraction : Q) : M unit := ret tt.

Definition QuietProgressBar_refresh (self : QuietProgressBar) : M unit :=
  ret tt.

Definition QuietProgressBar_close (self : QuietProgressBar) : M unit :=
  ret tt.

(** ** [RichProgressBar] *)

Record RichProgressBar : Type := {
  description : string;
  io_context_manager : nat;
  progress : option nat;
  task : nat
}.

(** The [for ... if isinstance ... break] loop over the context managers,
    started with [self.progress] at [self_progress]. *)
Fixpoint select_progress (w : world) (progress_context_managers : list nat)
    (self_progress : option nat) : option nat :=
  match progress_context_managers with
  | [] => self_progress
  | progress :: rest =>
      if isinstance_Progress w progress then Some progress
      else select_progress w rest self_progress
  end.

Definition no_progress_bar : string :=
  "Rich is configured, but there is no progress bar available".

(** [progress_context_managers] defaults to [None], and iterating over
    [None] is a [TypeError]. *)
Definition RichProgressBar_init (description : string)
    (io_context_manager : nat)
    (progress_context_managers : option (list nat)) : M RichProgressBar :=
  match progress_context_managers with
  | None => raise TypeError
  | Some managers =>
      self_progress <~ (fun w => (inr (select_progress w managers None), w)) ;;
      match self_progress with
      | None => raise (CondaError no_progress_bar)
      | Some l =>
          task <~ progress_add_task l description 1 ;;
          ret {| description := description;
                 io_context_manager := io_context_manager;
                 progress := Some l;
                 task := task |}
      end
  end.

Definition RichProgressBar_update_to (self : RichProgressBar)
    (fraction : Q) : M unit :=
  match progress self with
  | Some l =>
      progress_update l (task self) (Some fraction) None ;;;
      if Qeq_bool fraction 1
      then progress_update l (task self) None (Some false)
      else ret tt
  | None => ret tt
  end.

Definition RichProgressBar_close (self : RichProgressBar) : M unit :=
  match progress self with
  | Some l => progress_stop_task l (task self)
  | None => ret tt
  end.

Definition RichProgressBar_refresh (self : RichProgressBar) : M unit :=
  match progress self with
  | Some l => progress_refresh l
  | None => ret tt
  end.

(** ** [RichReporterRenderer.progress_bar] *)

Inductive ProgressBarBase : Type :=
| Quiet (bar : QuietProgressBar)
| Rich (bar : RichProgressBar).

Definition progress_bar (context : Context) (description : string)
    (io_context_manager : nat)
    (progress_context_managers : option (list nat)) : M ProgressBarBase :=
  if quiet context
  then bar <~ QuietProgressBar_init description io_context_manager
                                    progress_context_managers ;;
       ret (Quiet bar)
  else bar <~ RichProgressBar_init description io_context_manager
                                   progress_context_managers ;;
       ret (Rich bar).

(** ** Observations of the store *)

(** The task [task_id] of the widget at [l], when there is one. *)
Definition lookup_task (w : world) (l task_id : nat) : option rich.Task :=
  match heap w !! l with
  | Some (ObjProgress p) => rich.tasks p !! task_id
  | _ => None
  end.

(** The task a bar drives: [self.progress._tasks[self.task]]. *)
Definition task_of (w : world) (self : RichProgressBar)
  : option rich.Task :=
  match progress self with
  | Some l => lookup_task w l (task self)
  | None => None
  end.

(** The number of line feeds of a text. *)
Fixpoint count_nl (s : string) : nat :=
  match s with
  | EmptyString => 0
  | String c rest =>
      (if Ascii.eqb c "010"%char then 1 else 0) + count_nl rest
  end.

(** The task [add_task(description, total=1)] creates. *)
Definition fresh_task (description : string) : rich.Task :=
  {| rich.task_description := description;
     rich.task_total := Some 1%Q;
     rich.task_completed := 0%Q;
     rich.task_visible := true;
     rich.task_started := true;
     rich.task_stopped := false |}.

(** ** Further observations, for the properties beyond the claims *)

(** A text that consists of the given parts, each followed by a line
    feed. *)
Definition unlines (parts : list string) : string :=
  fold_right (fun part rest => part +:+ nl +:+ rest) "" parts.

(** The store [w] with the task [task_id] of the widget [p] at [l] set to
    [t]. *)
Definition put_task (w : world) (l : nat) (p : rich.Progress)
    (task_id : nat) (t : rich.Task) : world :=
  {| heap := <[l := ObjProgress
                      {| rich.tasks := <[task_id := t]> (rich.tasks p);
                         rich.task_index := rich.task_index p;
                         rich.refreshes := rich.refreshes p |}]> (heap w);
     out := out w |}.

(** What [update_to(fraction)] makes of a task: the completed amount is
    the fraction, and the task is hidden when the fraction equals 1. *)
Definition updated_task (fraction : Q) (t : rich.Task) : rich.Task :=
  {| rich.task_description := rich.task_description t;
     rich.task_total := rich.task_total t;
     rich.task_completed := fraction;
     rich.task_visible :=
       if Qeq_bool fraction 1 then false else rich.task_visible t;
     rich.task_started := rich.task_started t;
     rich.task_stopped := rich.task_stopped t |}.

(** What [close()] makes of a task. *)
Definition stopped_task (t : rich.Task) : rich.Task :=
  {| rich.task_description := rich.task_description t;
     rich.task_total := rich.task_total t;
     rich.task_completed := rich.task_completed t;
     rich.task_visible := rich.task_visible t;
     rich.task_started := true;
     rich.task_stopped := true |}.

(** The ids of a widget's tasks lie below its next task id: [add_task]
    hands out [_task_index] and increments it. *)
Definition wf_progress (p : rich.Progress) : Prop :=
  map_Forall (fun task_id _ => task_id < rich.task_index p) (rich.tasks p).

Definition wf_object (o : object) : Prop :=
  match o with
  | ObjProgress p => wf_progress p
  | ObjOther => True
  end.

Definition wf_world (w : world) : Prop :=
  map_Forall (fun _ o => wf_object o) (heap w).

#[global] Instance wf_progress_dec (p : rich.Progress) :
  Decision (wf_progress p).
Proof. unfold wf_progress. apply _. Defined.

#[global] Instance wf_object_dec (o : object) : Decision (wf_object o).
Proof. destruct o; simpl; apply _. Defined.

#[global] Instance wf_world_dec (w : world) : Decision (wf_world w).
Proof. unfold wf_world. apply _. Defined.

(** ** Concrete data for runs of the definitions *)

Definition base_ctx : Context :=
  {| active_prefix := Some "/opt/conda/envs/dev";
     root_prefix := "/opt/conda";
     envs_dirs := ["/opt/conda/envs"; "/home/u/.conda/envs"];
     quiet := false |}.

Definition quiet_ctx : Context :=
  {| active_prefix := None;
     root_prefix := "/opt/conda";
     envs_dirs := ["/opt/conda/envs"];
     quiet := true |}.

Definition posix_envs_list : Context -> list string -> string :=
  envs_list "base" posix_paths_equal posix_dirname posix_basename.

Definition posix_marked_rows : Context -> list string -> nat :=
  marked_rows "base" posix_paths_equal posix_dirname posix_basename.

Definition empty_progress : rich.Progress :=
  {| rich.tasks := ∅; rich.task_index := 0; rich.refreshes := 0 |}.

(** A store with a foreign context manager at 0 and widgets at 1 and 2. *)
Definition two_widgets : world :=
  {| heap := <[0 := ObjOther]>
               (<[1 := ObjProgress empty_progress]>
                  (<[2 := ObjProgress empty_progress]> ∅));
     out := ∅ |}.

(** The bar the constructor returns on [two_widgets] when it is handed the
    context managers 0, 2 and 1 in this order, and the store it leaves. *)
Definition numpy_bar : RichProgressBar :=
  {| description := "numpy"; io_context_manager := 7;
     progress := Some 2; task := 0 |}.

Definition started : world :=
  snd (RichProgressBar_init "numpy" 7 (Some [0; 2; 1]) two_widgets).

Definition details : list (string * value) :=
  [("platform", VStr "linux-64"); ("offline", VBool false);
   ("user-agent", VStr "conda/24.1"); ("UID", VInt 1000)].

(** ** Further concrete data *)

Definition posix_envs_row : Context -> string -> string :=
  disp_env "base" posix_paths_equal posix_dirname posix_basename.

(** A details mapping with an int of 4301 digits. *)
Definition huge_details : list (string * value) :=
  [("n", VInt (10 ^ 4300))].

(** A bar whose task the widget at 1 does not hold. *)
Definition stale_bar : RichProgressBar :=
  {| description := "scipy"; io_context_manager := 7;
     progress := Some 1; task := 5 |}.

(** A second bar, built on [started] with the widget at 2 alone, and the
    store it leaves. *)
Definition scipy_bar : RichProgressBar :=
  {| description := "scipy"; io_context_manager := 7;
     progress := Some 2; task := 1 |}.

Definition both_started : world :=
  snd (RichProgressBar_init "scipy" 7 (Some [2]) started).

(** * Properties *)

(** ** Strings and lists *)

Lemma append_cons (c : ascii) (s1 s2 : string) :
  String c s1 +:+ s2 = String c (s1 +:+ s2).
Proof. reflexivity. Qed.

Lemma length_append (s1 s2 : string) :
  String.length (s1 +:+ s2) = String.length s1 + String.length s2.
Proof.
  induction s1 as [|c s1 IH]; [reflexivity|].
  rewrite append_cons. simpl. now rewrite IH.
Qed.

Lemma length_spaces (n : nat) : String.length (spaces n) = n.
Proof. induction n as [|n IH]; simpl; congruence. Qed.


Lemma length_format_left (w : nat) (s : string) :
  String.length (format_left w s) = Nat.max w (String.length s).
Proof. unfold format_left. rewrite length_append, length_spaces. lia. Qed.

(** A loop that appends one rendered element per item builds the [map]. *)
Lemma fold_left_append {A B} (f : A -> B) (items : list A) (acc : list B) :
  fold_left (fun parts item => parts ++ [f item]) items acc
  = acc ++ map f items.
Proof.
  revert acc. induction items as [|x items IH]; intros acc; simpl.
  - now rewrite app_nil_r.
  - rewrite IH. now rewrite <- app_assoc.
Qed.

Lemma fold_left_max_ge (xs : list nat) (x : nat) :
  x <= fold_left Nat.max xs x
  /\ forall y, In y xs -> y <= fold_left Nat.max xs x.
Proof.
  revert x. induction xs as [|z xs IH]; intros x; simpl.
  - split; [lia | tauto].
  - destruct (IH (Nat.max x z)) as [Hx Hys]. split; [lia|].
    intros y [<- | Hy]; [lia | auto].
Qed.

Lemma fold_left_max_in (xs : list nat) (x : nat) :
  fold_left Nat.max xs x = x \/ In (fold_left Nat.max xs x) xs.
Proof.
  revert x. induction xs as [|z xs IH]; intros x; simpl; [now left|].
  destruct (IH (Nat.max x z)) as [Heq | Hin]; [|now right; right].
  rewrite Heq. destruct (Nat.max_spec x z) as [[_ ->] | [_ ->]]; auto.
Qed.

(** [py_max] returns an upper bound that is an element. *)
Lemma py_max_spec (xs : list nat) :
  xs <> [] ->
  exists m, py_max xs = inr m /\ In m xs /\ forall y, In y xs -> y <= m.
Proof.
  destruct xs as [|x xs]; [congruence|]. intros _.
  exists (fold_left Nat.max xs x). split; [reflexivity|].
  destruct (fold_left_max_ge xs x) as [Hx Hys].
  split.
  - destruct (fold_left_max_in xs x) as [-> | Hin]; simpl; auto.
  - intros y [<- | Hy]; auto.
Qed.

(** ** [detail_view] *)

(** On a non-empty mapping the width is found and the parts are the rows
    between the empty head and the closing line feed. *)
Lemma detail_view_nonempty (data : list (string * value)) :
  data <> [] ->
  exists m,
    In m (map String.length (map fst data)) /\
    (forall y, In y (map String.length (map fst data)) -> y <= m) /\
    detail_view data
    = inr (join nl ([""] ++ map (detail_row m) data ++ [nl])).
Proof.
  intros Hne.
  destruct (py_max_spec (map String.length (map fst data)))
    as (m & Hm & Hin & Hub).
  { destruct data; [congruence | discriminate]. }
  exists m. split; [exact Hin|]. split; [exact Hub|].
  unfold detail_view. rewrite Hm, fold_left_append.
  now rewrite <- app_assoc.
Qed.



(** The rendering of [details], as a run of the function. *)
Example detail_view_details :
  detail_view details
  = inr (join nl [""; "   platform : linux-64"; "    offline : False";
                  " user-agent : conda/24.1"; "        UID : 1000"; nl]).
Proof. reflexivity. Qed.

(** *** The limit on the digits of an int *)

Lemma exceeds_max_str_digits_off (z : Z) :
  exceeds_max_str_digits 0 z = false.
Proof.
  unfold exceeds_max_str_digits. simpl. now rewrite andb_false_r.
Qed.

(** Where no int of the items is over the limit the loop is the loop of
    [detail_view]. *)
Lemma detail_rows_within (max_str_digits longest : nat)
    (items : list (string * value)) (parts : list string) :
  (forall k z, In (k, VInt z) items ->
               exceeds_max_str_digits max_str_digits z = false) ->
  detail_rows max_str_digits longest items parts
  = inr (fold_left (fun parts item => parts ++ [detail_row longest item])
                   items parts).
Proof.
  revert parts. induction items as [|[k v] items IH]; intros parts Hin;
    [reflexivity|].
  simpl. assert (Hv : format_value max_str_digits v = inr (str v)).
  { destruct v as [s|z|b]; try reflexivity. simpl.
    now rewrite (Hin k z) by now left. }
  rewrite Hv. apply IH. intros k' z Hk. apply (Hin k' z). now right.
Qed.

(** Where an int of the items is over the limit the loop raises. *)
Lemma detail_rows_over (max_str_digits longest : nat)
    (items : list (string * value)) (parts : list string) (k : string)
    (z : Z) :
  In (k, VInt z) items ->
  exceeds_max_str_digits max_str_digits z = true ->
  detail_rows max_str_digits longest items parts = inl ValueError.
Proof.
  revert parts. induction items as [|[k' v] items IH]; intros parts Hin Hz;
    [destruct Hin|].
  simpl. destruct (format_value max_str_digits v) as [e|text] eqn:Hv.
  - destruct v as [s|z'|b]; try discriminate. simpl in Hv.
    destruct (exceeds_max_str_digits max_str_digits z'); congruence.
  - destruct Hin as [[= -> ->] | Hin]; [|now apply IH].
    simpl in Hv. rewrite Hz in Hv. discriminate.
Qed.

(** [detail_view] is [detail_view_limit] wherever no int is over the
    limit, and everywhere when the limit is off; so what is proved of the
    text [detail_view] returns is proved of every text
    [detail_view_limit] returns. *)
Lemma detail_view_limit_within (max_str_digits : nat)
    (data : list (string * value)) :
  (forall k z, In (k, VInt z) data ->
               exceeds_max_str_digits max_str_digits z = false) ->
  detail_view_limit max_str_digits data = detail_view data.
Proof.
  intros Hin. unfold detail_view_limit, detail_view.
  destruct (py_max (map String.length (map fst data))) as [e|longest];
    [reflexivity|].
  now rewrite detail_rows_within.
Qed.

Lemma detail_view_limit_off (data : list (string * value)) :
  detail_view_limit 0 data = detail_view data.
Proof.
  apply detail_view_limit_within. intros k z _.
  apply exceeds_max_str_digits_off.
Qed.

Lemma detail_view_limit_returns (max_str_digits : nat)
    (data : list (string * value)) (text : string) :
  detail_view_limit max_str_digits data = inr text ->
  detail_view data = inr text.
Proof.
  intros Hrun. rewrite <- Hrun. symmetry. apply detail_view_limit_within.
  intros k z Hin.
  destruct (exceeds_max_str_digits max_str_digits z) eqn:Hz; [|reflexivity].
  unfold detail_view_limit in Hrun.
  destruct (py_max (map String.length (map fst data))) as [e|longest];
    [discriminate|].
  now rewrite (detail_rows_over _ _ _ _ k z Hin Hz) in Hrun.
Qed.

(** The decimal text of a power of ten is a one and the zeros. *)
Lemma pow10_iter (n : nat) :
  (10 ^ Z.of_nat n)%Z = Nat.iter n (Z.mul 10) 1%Z.
Proof.
  induction n as [|n IH]; [reflexivity|].
  rewrite Nat2Z.inj_succ, Z.pow_succ_r by apply Nat2Z.is_nonneg.
  now rewrite IH.
Qed.

Lemma to_int_pow10 (n : nat) :
  Z.to_int (10 ^ Z.of_nat n)
  = Decimal.Pos (Decimal.D1 (Nat.iter n Decimal.D0 Decimal.Nil)).
Proof.
  rewrite pow10_iter.
  change 1%Z with (Z.of_uint (Decimal.D1 Decimal.Nil)).
  rewrite <- (DecimalZ.of_uint_iter_D0 (Decimal.D1 Decimal.Nil) n).
  change (Z.of_uint (Decimal.app (Decimal.D1 Decimal.Nil)
                                 (Nat.iter n Decimal.D0 Decimal.Nil)))
    with (Z.of_int
            (Decimal.Pos (Decimal.D1 (Nat.iter n Decimal.D0 Decimal.Nil)))).
  now rewrite DecimalZ.to_of.
Qed.

Lemma length_zeros (n : nat) :
  String.length
    (NilEmpty.string_of_uint (Nat.iter n Decimal.D0 Decimal.Nil)) = n.
Proof. induction n as [|n IH]; simpl; congruence. Qed.

(** [10 ^ n] has [n + 1] digits. *)
Lemma decimal_digits_pow10 (n : nat) :
  decimal_digits (10 ^ Z.of_nat n) = S n.
Proof.
  unfold decimal_digits, str.
  rewrite Z.abs_eq by (apply Z.pow_nonneg; discriminate).
  rewrite to_int_pow10. simpl. now rewrite length_zeros.
Qed.

(** With a limit of at least 640 digits, the least int with more digits
    than the limit is over it. *)
Lemma exceeds_max_str_digits_pow10 (max_str_digits : nat) :
  640 <= max_str_digits ->
  exceeds_max_str_digits max_str_digits (10 ^ Z.of_nat max_str_digits) = true.
Proof.
  intros Hlimit. unfold exceeds_max_str_digits.
  rewrite decimal_digits_pow10.
  assert (Hsign : (10 ^ Z.of_nat max_str_digits <? 0)%Z = false)
    by (apply Z.ltb_ge, Z.pow_nonneg; discriminate).
  rewrite Hsign.
  rewrite (proj2 (Nat.ltb_lt 640 (S max_str_digits))) by lia.
  rewrite (proj2 (Nat.ltb_lt 0 max_str_digits)) by lia.
  now rewrite (proj2 (Nat.ltb_lt max_str_digits (S max_str_digits))) by lia.
Qed.

(** The int of [huge_details] is over the limit an interpreter starts
    with. *)
Lemma huge_over_limit :
  exceeds_max_str_digits default_max_str_digits (10 ^ 4300) = true.
Proof.
  apply (exceeds_max_str_digits_pow10 4300).
  apply Nat.leb_le. reflexivity.
Qed.

(** C9 as the claim has it fails: a mapping with one key, whose value is
    an int of 4301 digits, makes [detail_view] raise [ValueError] on an
    interpreter with the limit it starts with. *)
Lemma detail_view_nonempty_raises :
  length huge_details = 1 /\
  detail_view_limit default_max_str_digits huge_details = inl ValueError.
Proof.
  split; [reflexivity|].
  assert (Hmax : py_max (map String.length (map fst huge_details)) = inr 1)
    by reflexivity.
  unfold detail_view_limit. rewrite Hmax.
  now rewrite (detail_rows_over default_max_str_digits 1 huge_details [""]
                 "n" (10 ^ 4300) (or_introl eq_refl) huge_over_limit).
Qed.

(** C9, as the code has it.  [detail_view] raises [ValueError] on the
    empty mapping, from [max], and on a mapping with an int value over
    the interpreter's limit on the digits of an int, from formatting it.
    On a mapping with at least one key and no such value it returns a
    string, the one of [detail_view] without a limit, and raises
    nothing. *)
Theorem detail_view_limit_defined (max_str_digits : nat)
    (data : list (string * value)) :
  (data = [] -> detail_view_limit max_str_digits data = inl ValueError) /\
  (data <> [] ->
   (forall k z, In (k, VInt z) data ->
                exceeds_max_str_digits max_str_digits z = false) ->
   (exists text, detail_view_limit max_str_digits data = inr text /\
                 detail_view data = inr text) /\
   forall e, detail_view_limit max_str_digits data <> inl e) /\
  (forall k z, In (k, VInt z) data ->
               exceeds_max_str_digits max_str_digits z = true ->
               detail_view_limit max_str_digits data = inl ValueError).
Proof.
  split; [|split].
  - intros ->. reflexivity.
  - intros Hne Hin.
    rewrite (detail_view_limit_within max_str_digits data Hin).
    destruct (detail_view_nonempty data Hne) as (m & _ & _ & Hs).
    split; [eauto|]. intros e. rewrite Hs. discriminate.
  - intros k z Hin Hz. unfold detail_view_limit.
    destruct (py_max (map String.length (map fst data))) as [e|longest] eqn:Hm.
    + destruct data; [destruct Hin | discriminate].
    + now rewrite (detail_rows_over _ _ _ _ k z Hin Hz).
Qed.

Lemma detail_view_limit_defined_witness :
  detail_view_limit default_max_str_digits [] = inl ValueError /\
  (exists text,
     detail_view_limit default_max_str_digits details = inr text /\
     detail_view details = inr text) /\
  detail_view_limit default_max_str_digits huge_details = inl ValueError.
Proof.
  split; [|split].
  - exact (proj1 (detail_view_limit_defined default_max_str_digits [])
                 eq_refl).
  - apply (proj1 (proj2 (detail_view_limit_defined default_max_str_digits
                           details))); [discriminate|].
    intros k z [H | [H | [H | [H | []]]]]; try discriminate.
    injection H as _ <-. reflexivity.
  - apply (proj2 (proj2 (detail_view_limit_defined default_max_str_digits
                           huge_details)) "n" (10 ^ 4300)%Z).
    + now left.
    + exact huge_over_limit.
Defined.

(** ** [envs_list] *)

Section EnvsListProperties.
Variable ROOT_ENV_NAME : string.
Variable paths_equal : string -> string -> bool.
Variable dirname : string -> string.
Variable basename : string -> string.
Variable context : Context.

Local Abbreviation name_of := (disp_env_name ROOT_ENV_NAME paths_equal dirname
                                         basename context).
Local Abbreviation row_of := (disp_env ROOT_ENV_NAME paths_equal dirname
                                   basename context).
Local Abbreviation column_of := (marker_column ROOT_ENV_NAME paths_equal dirname
                                           basename context).
Local Abbreviation render := (envs_list ROOT_ENV_NAME paths_equal dirname
                                    basename context).
Local Abbreviation marked := (marked_rows ROOT_ENV_NAME paths_equal dirname
                                      basename context).
Local Abbreviation row_marked_of := (row_marked ROOT_ENV_NAME paths_equal dirname
                                            basename context).

(** The output is the three head lines, the rows in the order of the
    prefixes, and the closing line feed. *)
Lemma envs_list_rows (data : list string) :
  render data
  = join nl ([""; "# conda environments:"; "#"] ++ map row_of data ++ [nl]).
Proof.
  unfold envs_list. rewrite fold_left_append. now rewrite <- app_assoc.
Qed.

(** The marker of a row sits in its marker column. *)
Lemma disp_env_marker (prefix : string) :
  String.get (column_of prefix) (row_of prefix)
  = Some (if is_active context prefix then "*"%char else " "%char).
Proof.
  unfold marker_column, disp_env.
  rewrite <- (length_format_left 20 (name_of prefix)).
  rewrite Nat.add_comm. rewrite <- append_correct2.
  unfold disp_env_active. now destruct (is_active context prefix).
Qed.

Lemma row_marked_is_active (prefix : string) :
  row_marked_of prefix = is_active context prefix.
Proof.
  unfold row_marked. rewrite disp_env_marker.
  now destruct (is_active context prefix).
Qed.

Lemma is_active_true (prefix : string) :
  is_active context prefix = true <-> active_prefix context = Some prefix.
Proof.
  unfold is_active. destruct (active_prefix context) as [a|].
  - rewrite String.eqb_eq. split; [now intros -> | congruence].
  - split; discriminate.
Qed.

Lemma marked_rows_count (data : list string) :
  marked data
  = match active_prefix context with
    | Some a => count_occ string_dec data a
    | None => 0
    end.
Proof.
  unfold marked_rows.
  induction data as [|p data IH]; simpl.
  - now destruct (active_prefix context).
  - rewrite row_marked_is_active.
    pose proof (is_active_true p) as Hact.
    destruct (active_prefix context) as [a|].
    + destruct (string_dec p a) as [-> | Hne].
      * rewrite (proj2 Hact eq_refl). simpl. now rewrite IH.
      * destruct (is_active context p); [|exact IH].
        exfalso. apply Hne. destruct Hact as [Hact _].
        specialize (Hact eq_refl). congruence.
    + destruct (is_active context p); [|exact IH].
      destruct Hact as [Hact _]. discriminate (Hact eq_refl).
Qed.

(** C1, as the code has it.  The row of a prefix carries ['*'] in its
    marker column when the prefix equals the active prefix and a blank
    there otherwise; so the rendered output has as many marked rows as
    the active prefix has occurrences in the list (none when no prefix is
    active), and exactly one when the active prefix occurs exactly once. *)
Theorem envs_list_marks_every_occurrence (data : list string) :
  render data
  = join nl ([""; "# conda environments:"; "#"] ++ map row_of data ++ [nl])
  /\ (forall prefix,
        String.get (column_of prefix) (row_of prefix)
        = Some (if decide (active_prefix context = Some prefix)
                then "*"%char else " "%char))
  /\ marked data
     = match active_prefix context with
       | Some a => count_occ string_dec data a
       | None => 0
       end
  /\ (forall a, active_prefix context = Some a ->
                count_occ string_dec data a = 1 -> marked data = 1).
Proof.
  split; [apply envs_list_rows|]. split; [|split].
  - intros prefix. rewrite disp_env_marker.
    pose proof (is_active_true prefix) as Hact.
    destruct (is_active context prefix); case_decide; try reflexivity.
    + exfalso. tauto.
    + destruct Hact as [_ Hact]. discriminate (Hact H).
  - apply marked_rows_count.
  - intros a Ha Hone. rewrite marked_rows_count, Ha. exact Hone.
Qed.

(** C3.  The row of each prefix of the list starts with its display name,
    left-aligned in a field of 20: the reserved root name for the root
    prefix; otherwise the base name when some configured environments
    directory is [paths_equal] to the parent directory of the prefix;
    otherwise the empty name. *)
Theorem envs_list_display_names (data : list string) (i : nat)
    (prefix : string) (Hi : nth_error data i = Some prefix) :
  exists (rows : list string) (name : string),
    render data
    = join nl ([""; "# conda environments:"; "#"] ++ rows ++ [nl]) /\
    length rows = length data /\
    nth_error rows i
    = Some (format_left 20 name +:+ " " +:+ disp_env_active context prefix
            +:+ " " +:+ prefix) /\
    (prefix = root_prefix context -> name = ROOT_ENV_NAME) /\
    (prefix <> root_prefix context ->
     (exists envs_dir, In envs_dir (envs_dirs context) /\
                       paths_equal envs_dir (dirname prefix) = true) ->
     name = basename prefix) /\
    (prefix <> root_prefix context ->
     (forall envs_dir, In envs_dir (envs_dirs context) ->
                       paths_equal envs_dir (dirname prefix) = false) ->
     name = "").
Proof.
  exists (map row_of data), (name_of prefix).
  split; [apply envs_list_rows|]. split; [apply length_map|].
  split; [now rewrite nth_error_map, Hi|].
  unfold disp_env_name. split; [|split].
  - intros ->. now rewrite String.eqb_refl.
  - intros Hne Hex. apply String.eqb_neq in Hne. rewrite Hne.
    apply existsb_exists in Hex. now rewrite Hex.
  - intros Hne Hall. apply String.eqb_neq in Hne. rewrite Hne.
    destruct (existsb _ _) eqn:Hex; [|reflexivity].
    apply existsb_exists in Hex as (d & Hd & Heq).
    rewrite (Hall d Hd) in Heq. discriminate.
Qed.
End EnvsListProperties.

(** The listing of four prefixes under [base_ctx], as a run. *)
Example envs_list_base_ctx :
  posix_envs_list base_ctx
    ["/opt/conda"; "/opt/conda/envs/dev"; "/srv/x";
     "/home/u/.conda/envs/a-very-long-environment-name"]
  = join nl
      [""; "# conda environments:"; "#";
       "base                   /opt/conda";
       "dev                  * /opt/conda/envs/dev";
       "                       /srv/x";
       "a-very-long-environment-name   /home/u/.conda/envs/a-very-long-environment-name";
       nl].
Proof. reflexivity. Qed.

(** C1 as the claim has it fails: with the active prefix absent from the
    list no row is marked, and with the active prefix listed twice two
    rows are. *)
Lemma envs_list_not_exactly_one_marked :
  posix_marked_rows base_ctx ["/opt/conda"; "/srv/x"] = 0 /\
  posix_marked_rows quiet_ctx ["/opt/conda"; "/opt/conda/envs/dev"] = 0 /\
  posix_marked_rows base_ctx ["/opt/conda/envs/dev"; "/opt/conda/envs/dev"]
  = 2.
Proof. repeat split; reflexivity. Qed.

Lemma envs_list_marks_every_occurrence_witness :
  posix_marked_rows base_ctx ["/opt/conda"; "/opt/conda/envs/dev"; "/srv/x"]
  = 1.
Proof.
  refine (proj2 (proj2 (proj2
    (envs_list_marks_every_occurrence "base" posix_paths_equal posix_dirname
       posix_basename base_ctx
       ["/opt/conda"; "/opt/conda/envs/dev"; "/srv/x"])))
    "/opt/conda/envs/dev" _ _); reflexivity.
Defined.

Lemma envs_list_display_names_witness :
  exists (rows : list string) (name : string),
    posix_envs_list base_ctx ["/opt/conda"; "/opt/conda/envs/dev"; "/srv/x"]
    = join nl ([""; "# conda environments:"; "#"] ++ rows ++ [nl]) /\
    length rows = 3 /\
    nth_error rows 1
    = Some (format_left 20 name +:+ " * /opt/conda/envs/dev") /\
    name = "dev".
Proof.
  destruct (envs_list_display_names "base" posix_paths_equal posix_dirname
              posix_basename base_ctx
              ["/opt/conda"; "/opt/conda/envs/dev"; "/srv/x"] 1
              "/opt/conda/envs/dev" eq_refl)
    as (rows & name & Hout & Hlen & Hrow & _ & Hbase & _).
  exists rows, name. split; [exact Hout|]. split; [exact Hlen|].
  split; [exact Hrow|].
  apply Hbase; [discriminate|].
  exists "/opt/conda/envs". split; [now left | reflexivity].
Defined.

(** ** The store and the widget calls *)

Lemma lookup_task_insert (w : world) (l : nat) (p : rich.Progress)
    (l' task_id : nat) :
  lookup_task {| heap := <[l := ObjProgress p]> (heap w); out := out w |}
              l' task_id
  = if decide (l' = l) then rich.tasks p !! task_id
    else lookup_task w l' task_id.
Proof.
  unfold lookup_task. simpl. case_decide as Hl.
  - subst l'. now rewrite lookup_insert_eq.
  - now rewrite lookup_insert_ne by congruence.
Qed.

(** A call either fails and leaves the store as it was, or succeeds and
    replaces the widget it was made on. *)
Lemma call_cases {A} (l : nat)
    (method : rich.Progress -> exn + (A * rich.Progress)) (w : world) :
  (exists e, call l method w = (inl e, w) /\
             (heap w !! l = Some ObjOther \/ heap w !! l = None \/
              exists p, heap w !! l = Some (ObjProgress p)
                        /\ method p = inl e)) \/
  (exists p a p',
     heap w !! l = Some (ObjProgress p) /\ method p = inr (a, p') /\
     call l method w
     = (inr a, {| heap := <[l := ObjProgress p']> (heap w); out := out w |})).
Proof.
  unfold call. destruct (heap w !! l) as [[p|]|] eqn:Hl.
  - destruct (method p) as [e|[a p']] eqn:Hm.
    + left. exists e. split; [reflexivity|]. right. right. now exists p.
    + right. now exists p, a, p'.
  - left. exists AttributeError. auto.
  - left. exists AttributeError. auto.
Qed.

Lemma progress_update_ok (w : world) (l task_id : nat) (t : rich.Task)
    (completed : option Q) (visible : option bool) :
  lookup_task w l task_id = Some t ->
  exists w',
    progress_update l task_id completed visible w = (inr tt, w') /\
    out w' = out w /\
    forall l' id,
      lookup_task w' l' id
      = if decide (l' = l /\ id = task_id)
        then Some (rich.set_fields completed visible t)
        else lookup_task w l' id.
Proof.
  unfold lookup_task at 1. intros Ht.
  destruct (heap w !! l) as [[p|]|] eqn:Hl; try discriminate.
  unfold progress_update, call, rich.update. rewrite Hl, Ht.
  eexists. split; [reflexivity|]. split; [reflexivity|].
  intros l' id. rewrite lookup_task_insert. simpl.
  destruct (decide (l' = l)) as [->|Hne].
  - destruct (decide (id = task_id)) as [->|Hid].
    + rewrite lookup_insert_eq. now rewrite decide_True by auto.
    + rewrite lookup_insert_ne by congruence.
      rewrite decide_False by tauto.
      unfold lookup_task. now rewrite Hl.
  - now rewrite decide_False by tauto.
Qed.

(** A failed update changes nothing. *)
Lemma progress_update_fail (w : world) (l task_id : nat)
    (completed : option Q) (visible : option bool) :
  lookup_task w l task_id = None ->
  exists e, progress_update l task_id completed visible w = (inl e, w)
            /\ (e = KeyError \/ e = AttributeError).
Proof.
  unfold lookup_task, progress_update, call, rich.update. intros Ht.
  destruct (heap w !! l) as [[p|]|] eqn:Hl; eauto.
  rewrite Ht. eauto.
Qed.

(** An update that passes no [visible] leaves every visibility alone. *)
Lemma progress_update_completed_visible (w : world) (l task_id : nat)
    (fraction : Q) (l' id : nat) :
  rich.task_visible
    <$> lookup_task (snd (progress_update l task_id (Some fraction) None w))
                    l' id
  = rich.task_visible <$> lookup_task w l' id.
Proof.
  destruct (lookup_task w l task_id) as [t|] eqn:Ht.
  - destruct (progress_update_ok w l task_id t (Some fraction) None Ht)
      as (w' & -> & _ & Hlook).
    simpl. rewrite Hlook. case_decide as Heq; [|reflexivity].
    destruct Heq as [-> ->]. now rewrite Ht.
  - destruct (progress_update_fail w l task_id (Some fraction) None Ht)
      as (e & -> & _).
    reflexivity.
Qed.

(** A call whose method keeps the visibility of every task of its widget
    keeps the visibility of every task of the store. *)
Lemma call_keeps_visible {A} (l : nat)
    (method : rich.Progress -> exn + (A * rich.Progress)) (w : world) :
  (forall p a p', method p = inr (a, p') ->
     forall id, rich.task_visible <$> rich.tasks p' !! id
                = rich.task_visible <$> rich.tasks p !! id) ->
  forall l' id,
    rich.task_visible <$> lookup_task (snd (call l method w)) l' id
    = rich.task_visible <$> lookup_task w l' id.
Proof.
  intros Hkeep l' id.
  destruct (call_cases l method w)
    as [(e & -> & _) | (p & a & p' & Hl & Hm & ->)]; [reflexivity|].
  simpl. rewrite lookup_task_insert. case_decide as Heq; [|reflexivity].
  subst l'. rewrite (Hkeep p a p' Hm id).
  unfold lookup_task. now rewrite Hl.
Qed.

Lemma progress_stop_task_visible (w : world) (l task_id l' id : nat) :
  rich.task_visible <$> lookup_task (snd (progress_stop_task l task_id w)) l' id
  = rich.task_visible <$> lookup_task w l' id.
Proof.
  apply call_keeps_visible. intros p a p' Hm id0.
  unfold rich.stop_task in Hm.
  destruct (rich.tasks p !! task_id) as [t|] eqn:Ht; [|discriminate].
  injection Hm as _ <-. simpl.
  destruct (decide (id0 = task_id)) as [->|Hne].
  - now rewrite lookup_insert_eq, Ht.
  - now rewrite lookup_insert_ne by congruence.
Qed.

Lemma progress_refresh_visible (w : world) (l l' id : nat) :
  rich.task_visible <$> lookup_task (snd (progress_refresh l w)) l' id
  = rich.task_visible <$> lookup_task w l' id.
Proof.
  apply call_keeps_visible. intros p a p' Hm id0.
  now injection Hm as _ <-.
Qed.

(** ** [RichProgressBar.update_to] *)

(** C6.  On a bar whose widget is set and holds the bar's task,
    [update_to] with a fraction equal to 1 first updates the task with
    [completed=fraction], which leaves its visibility as it was, and then
    updates it with [visible=False]; it returns, and the task then has
    [completed] equal to 1 and is not visible. *)
Theorem RichProgressBar_update_to_one (self : RichProgressBar)
    (fraction : Q) (w : world) (l : nat) (t : rich.Task)
    (Hprogress : progress self = Some l)
    (Htask : lookup_task w l (task self) = Some t)
    (Hone : (fraction == 1)%Q) :
  exists (w1 w2 : world) (t1 t2 : rich.Task),
    progress_update l (task self) (Some fraction) None w = (inr tt, w1) /\
    lookup_task w1 l (task self) = Some t1 /\
    rich.task_completed t1 = fraction /\
    rich.task_visible t1 = rich.task_visible t /\
    progress_update l (task self) None (Some false) w1 = (inr tt, w2) /\
    RichProgressBar_update_to self fraction w = (inr tt, w2) /\
    lookup_task w2 l (task self) = Some t2 /\
    (rich.task_completed t2 == 1)%Q /\
    rich.task_visible t2 = false.
Proof.
  destruct (progress_update_ok w l (task self) t (Some fraction) None Htask)
    as (w1 & Hfirst & _ & Hlook1).
  assert (Ht1 : lookup_task w1 l (task self)
                = Some (rich.set_fields (Some fraction) None t)).
  { rewrite Hlook1. now rewrite decide_True by auto. }
  destruct (progress_update_ok w1 l (task self) _ None (Some false) Ht1)
    as (w2 & Hsecond & _ & Hlook2).
  exists w1, w2, (rich.set_fields (Some fraction) None t),
    (rich.set_fields None (Some false)
       (rich.set_fields (Some fraction) None t)).
  split; [exact Hfirst|]. split; [exact Ht1|].
  split; [reflexivity|]. split; [reflexivity|].
  split; [exact Hsecond|]. split.
  - unfold RichProgressBar_update_to, bind. rewrite Hprogress, Hfirst.
    apply Qeq_bool_iff in Hone. now rewrite Hone.
  - split; [|split; [exact Hone | reflexivity]].
    rewrite Hlook2. now rewrite decide_True by auto.
Qed.

(** C10.  [update_to] with a fraction other than 1 leaves the visibility
    of every task and every output sink as they were; on a bar whose
    widget holds its task it returns and changes that task in its
    completed amount only, and no other task.  [refresh] and [close]
    leave every visibility alone as well, so that among the calls on a
    bar only [update_to] with a fraction equal to 1 changes one. *)
Theorem RichProgressBar_update_to_other (self : RichProgressBar)
    (fraction : Q) (w : world) (Hother : ~ (fraction == 1)%Q) :
  (forall l id,
     rich.task_visible
       <$> lookup_task (snd (RichProgressBar_update_to self fraction w)) l id
     = rich.task_visible <$> lookup_task w l id) /\
  out (snd (RichProgressBar_update_to self fraction w)) = out w /\
  (forall l t,
     progress self = Some l -> lookup_task w l (task self) = Some t ->
     fst (RichProgressBar_update_to self fraction w) = inr tt /\
     forall l' id,
       lookup_task (snd (RichProgressBar_update_to self fraction w)) l' id
       = if decide (l' = l /\ id = task self)
         then Some {| rich.task_description := rich.task_description t;
                      rich.task_total := rich.task_total t;
                      rich.task_completed := fraction;
                      rich.task_visible := rich.task_visible t;
                      rich.task_started := rich.task_started t;
                      rich.task_stopped := rich.task_stopped t |}
         else lookup_task w l' id) /\
  (forall w0 l id,
     rich.task_visible <$> lookup_task (snd (RichProgressBar_refresh self w0)) l id
     = rich.task_visible <$> lookup_task w0 l id) /\
  (forall w0 l id,
     rich.task_visible <$> lookup_task (snd (RichProgressBar_close self w0)) l id
     = rich.task_visible <$> lookup_task w0 l id).
Proof.
  assert (Hbool : Qeq_bool fraction 1 = false).
  { destruct (Qeq_bool fraction 1) eqn:Hb; [|reflexivity].
    exfalso. apply Hother. now apply Qeq_bool_iff. }
  assert (Hrun : RichProgressBar_update_to self fraction w
                 = match progress self with
                   | Some l => progress_update l (task self) (Some fraction)
                                               None w
                   | None => (inr tt, w)
                   end).
  { unfold RichProgressBar_update_to, bind. rewrite Hbool.
    destruct (progress self) as [l|]; [|reflexivity].
    now destruct (progress_update l (task self) (Some fraction) None w)
      as [[e|[]] w']. }
  rewrite Hrun. split; [|split; [|split; [|split]]].
  - intros l id. destruct (progress self) as [l0|]; [|reflexivity].
    apply progress_update_completed_visible.
  - destruct (progress self) as [l0|]; [|reflexivity].
    destruct (lookup_task w l0 (task self)) as [t|] eqn:Ht.
    + now destruct (progress_update_ok w l0 (task self) t (Some fraction)
                      None Ht) as (w' & -> & Hout & _).
    + now destruct (progress_update_fail w l0 (task self) (Some fraction)
                      None Ht) as (e & -> & _).
  - intros l t -> Ht.
    destruct (progress_update_ok w l (task self) t (Some fraction) None Ht)
      as (w' & -> & _ & Hlook).
    split; [reflexivity|]. exact Hlook.
  - intros w0 l id. unfold RichProgressBar_refresh.
    destruct (progress self) as [l0|]; [|reflexivity].
    apply progress_refresh_visible.
  - intros w0 l id. unfold RichProgressBar_close.
    destruct (progress self) as [l0|]; [|reflexivity].
    apply progress_stop_task_visible.
Qed.

(** ** The constructor of [RichProgressBar] *)

Lemma select_progress_none (w : world) (managers : list nat) :
  (forall l, In l managers -> isinstance_Progress w l = false) ->
  select_progress w managers None = None.
Proof.
  induction managers as [|x managers IH]; intros Hnone; [reflexivity|].
  simpl. rewrite (Hnone x) by now left.
  apply IH. intros l Hl. apply Hnone. now right.
Qed.

Lemma select_progress_first (w : world) (before after : list nat) (l : nat)
    (self_progress : option nat) :
  (forall x, In x before -> isinstance_Progress w x = false) ->
  isinstance_Progress w l = true ->
  select_progress w (before ++ l :: after) self_progress = Some l.
Proof.
  induction before as [|x before IH]; intros Hbefore Hl; simpl.
  - now rewrite Hl.
  - rewrite (Hbefore x) by now left.
    apply IH; [|exact Hl]. intros y Hy. apply Hbefore. now right.
Qed.

(** What the loop selects is an element of the list and a widget. *)
Lemma select_progress_some (w : world) (managers : list nat) (l : nat) :
  select_progress w managers None = Some l ->
  In l managers /\ isinstance_Progress w l = true.
Proof.
  induction managers as [|x managers IH]; simpl; [discriminate|].
  destruct (isinstance_Progress w x) eqn:Hx.
  - intros [= ->]. auto.
  - intros Hsel. destruct (IH Hsel). auto.
Qed.

Lemma isinstance_Progress_true (w : world) (l : nat) :
  isinstance_Progress w l = true ->
  exists p, heap w !! l = Some (ObjProgress p).
Proof.
  unfold isinstance_Progress.
  destruct (heap w !! l) as [[p|]|]; try discriminate. eauto.
Qed.

(** The two ways the constructor ends when it is given a list. *)
Lemma RichProgressBar_init_cases (desc : string) (io : nat)
    (managers : list nat) (w : world) :
  (select_progress w managers None = None /\
   RichProgressBar_init desc io (Some managers) w
   = (inl (CondaError no_progress_bar), w)) \/
  (exists l p,
     select_progress w managers None = Some l /\
     heap w !! l = Some (ObjProgress p) /\
     RichProgressBar_init desc io (Some managers) w
     = (inr {| description := desc; io_context_manager := io;
               progress := Some l; task := rich.task_index p |},
        {| heap := <[l := ObjProgress (snd (rich.add_task desc 1 p))]> (heap w);
           out := out w |})).
Proof.
  unfold RichProgressBar_init, bind.
  destruct (select_progress w managers None) as [l|] eqn:Hsel.
  - right. destruct (select_progress_some w managers l Hsel) as [_ Hl].
    destruct (isinstance_Progress_true w l Hl) as [p Hp].
    exists l, p. split; [reflexivity|]. split; [exact Hp|].
    unfold progress_add_task, call. now rewrite Hp.
  - left. split; reflexivity.
Qed.

(** Every bar the constructor returns has its widget set, and the widget
    holds the bar's task. *)
Lemma RichProgressBar_init_task_of (desc : string) (io : nat)
    (kwargs : option (list nat)) (w w1 : world) (self : RichProgressBar) :
  RichProgressBar_init desc io kwargs w = (inr self, w1) ->
  exists l, progress self = Some l /\
            task_of w1 self = Some (fresh_task desc).
Proof.
  destruct kwargs as [managers|]; [|discriminate].
  destruct (RichProgressBar_init_cases desc io managers w)
    as [[_ ->] | (l & p & _ & _ & ->)]; [discriminate|].
  intros [= <- <-]. exists l. split; [reflexivity|].
  unfold task_of. simpl. rewrite lookup_task_insert.
  rewrite decide_True by reflexivity. simpl. apply lookup_insert_eq.
Qed.

(** The errors of the widget calls are those of the widget. *)
Lemma progress_update_error (l task_id : nat) (completed : option Q)
    (visible : option bool) (w : world) (e : exn) :
  fst (progress_update l task_id completed visible w) = inl e ->
  e = KeyError \/ e = AttributeError.
Proof.
  unfold progress_update, call, rich.update.
  destruct (heap w !! l) as [[p|]|]; simpl; try (intros [= <-]; auto).
  destruct (rich.tasks p !! task_id); simpl; [discriminate|].
  intros [= <-]. auto.
Qed.

Lemma progress_stop_task_error (l task_id : nat) (w : world) (e : exn) :
  fst (progress_stop_task l task_id w) = inl e ->
  e = KeyError \/ e = AttributeError.
Proof.
  unfold progress_stop_task, call, rich.stop_task.
  destruct (heap w !! l) as [[p|]|]; simpl; try (intros [= <-]; auto).
  destruct (rich.tasks p !! task_id); simpl; [discriminate|].
  intros [= <-]. auto.
Qed.

Lemma progress_refresh_error (l : nat) (w : world) (e : exn) :
  fst (progress_refresh l w) = inl e -> e = AttributeError.
Proof.
  unfold progress_refresh, call.
  destruct (heap w !! l) as [[p|]|]; simpl; try discriminate;
    now intros [= <-].
Qed.

(** C4.  Given a list of context managers none of which is a [Progress],
    the constructor raises [CondaError] with the store as it found it: no
    task has been added anywhere.  No other operation of the adapter
    raises a [CondaError], and the constructor raises it only when it is
    given a list with no [Progress] in it. *)
Theorem RichProgressBar_init_no_progress (desc : string) (io : nat)
    (managers : list nat) (w : world)
    (Hnone : forall l, In l managers -> isinstance_Progress w l = false) :
  RichProgressBar_init desc io (Some managers) w
  = (inl (CondaError no_progress_bar), w) /\
  (forall desc' io' kwargs w' message,
     fst (RichProgressBar_init desc' io' kwargs w') = inl (CondaError message) ->
     exists managers',
       kwargs = Some managers' /\
       (forall l, In l managers' -> isinstance_Progress w' l = false) /\
       snd (RichProgressBar_init desc' io' kwargs w') = w') /\
  (forall desc' io' kwargs w' message,
     fst (QuietProgressBar_init desc' io' kwargs w')
     <> inl (CondaError message)) /\
  (forall self fraction w' message,
     fst (RichProgressBar_update_to self fraction w')
     <> inl (CondaError message)) /\
  (forall self w' message,
     fst (RichProgressBar_refresh self w') <> inl (CondaError message)) /\
  (forall self w' message,
     fst (RichProgressBar_close self w') <> inl (CondaError message)) /\
  (forall data message, detail_view data <> inl (CondaError message)).
Proof.
  split; [|split; [|split; [|split; [|split; [|split]]]]].
  - destruct (RichProgressBar_init_cases desc io managers w)
      as [[_ Hrun] | (l & p & Hsel & Hp & _)]; [exact Hrun|].
    rewrite (select_progress_none w managers Hnone) in Hsel. discriminate.
  - intros desc' io' [managers'|] w' message; [|discriminate].
    destruct (RichProgressBar_init_cases desc' io' managers' w')
      as [[Hsel ->] | (l & p & _ & _ & ->)]; [|discriminate].
    intros _. exists managers'. split; [reflexivity|]. split; [|reflexivity].
    intros l Hl. destruct (isinstance_Progress w' l) eqn:Hinst; [|reflexivity].
    apply in_split in Hl as (before & after & ->).
    clear Hnone. exfalso.
    induction before as [|x before IH]; simpl in Hsel.
    + rewrite Hinst in Hsel. discriminate.
    + destruct (isinstance_Progress w' x); [discriminate | auto].
  - intros desc' io' kwargs w' message. discriminate.
  - intros self fraction w' message.
    unfold RichProgressBar_update_to, bind.
    destruct (progress self) as [l|]; [|discriminate].
    destruct (progress_update l (task self) (Some fraction) None w')
      as [[e|[]] w1] eqn:Hfirst.
    + intros [= ->].
      destruct (progress_update_error l (task self) (Some fraction) None w'
                  (CondaError message)); [now rewrite Hfirst | |];
        discriminate.
    + destruct (Qeq_bool fraction 1); [|discriminate].
      intros Hsecond.
      destruct (progress_update_error _ _ _ _ _ _ Hsecond); discriminate.
  - intros self w' message. unfold RichProgressBar_refresh.
    destruct (progress self) as [l|]; [|discriminate].
    intros Herr. discriminate (progress_refresh_error _ _ _ Herr).
  - intros self w' message. unfold RichProgressBar_close.
    destruct (progress self) as [l|]; [|discriminate].
    intros Herr.
    destruct (progress_stop_task_error _ _ _ _ Herr); discriminate.
  - intros data message. unfold detail_view.
    destruct (map String.length (map fst data)); discriminate.
Qed.

Lemma RichProgressBar_init_no_progress_witness :
  RichProgressBar_init "numpy" 7 (Some [0; 3]) two_widgets
  = (inl (CondaError no_progress_bar), two_widgets).
Proof.
  apply (RichProgressBar_init_no_progress "numpy" 7 [0; 3] two_widgets).
  intros l [<- | [<- | []]]; reflexivity.
Defined.

(** C8.  Given a list of context managers with a [Progress] in it, the
    constructor returns a bar whose [progress] is the first [Progress] of
    the list, whatever follows it in the list; the bar's task is the one
    just added to that widget, and no other object of the store and no
    sink is touched. *)
Theorem RichProgressBar_init_first_progress (desc : string) (io : nat)
    (before after : list nat) (l : nat) (w : world)
    (Hbefore : forall x, In x before -> isinstance_Progress w x = false)
    (Hl : isinstance_Progress w l = true) :
  exists (self : RichProgressBar) (w1 : world),
    RichProgressBar_init desc io (Some (before ++ l :: after)) w
    = (inr self, w1) /\
    progress self = Some l /\
    description self = desc /\
    io_context_manager self = io /\
    lookup_task w1 l (task self) = Some (fresh_task desc) /\
    (forall l', l' <> l -> heap w1 !! l' = heap w !! l') /\
    out w1 = out w.
Proof.
  destruct (RichProgressBar_init_cases desc io (before ++ l :: after) w)
    as [[Hsel _] | (l0 & p & Hsel & Hp & Hrun)];
    rewrite (select_progress_first w before after l None Hbefore Hl) in Hsel;
    [discriminate|].
  injection Hsel as <-.
  eexists _, _. split; [exact Hrun|]. simpl.
  repeat (split; [reflexivity|]). split; [|split; [|reflexivity]].
  - rewrite lookup_task_insert. rewrite decide_True by reflexivity.
    simpl. apply lookup_insert_eq.
  - intros l' Hne. now rewrite lookup_insert_ne by congruence.
Qed.

Lemma RichProgressBar_init_first_progress_witness :
  exists (self : RichProgressBar) (w1 : world),
    RichProgressBar_init "numpy" 7 (Some ([0] ++ 2 :: [1])) two_widgets
    = (inr self, w1) /\
    progress self = Some 2 /\
    description self = "numpy" /\
    io_context_manager self = 7 /\
    lookup_task w1 2 (task self) = Some (fresh_task "numpy") /\
    (forall l', l' <> 2 -> heap w1 !! l' = heap two_widgets !! l') /\
    out w1 = out two_widgets.
Proof.
  apply (RichProgressBar_init_first_progress "numpy" 7 [0] [1] 2 two_widgets).
  - intros x [<- | []]. reflexivity.
  - reflexivity.
Defined.

(** ** [QuietProgressBar] *)

Lemma count_nl_append (s1 s2 : string) :
  count_nl (s1 +:+ s2) = count_nl s1 + count_nl s2.
Proof.
  induction s1 as [|c s1 IH]; [reflexivity|].
  rewrite append_cons. simpl. rewrite IH. lia.
Qed.

(** C5.  The constructor of [QuietProgressBar] returns, and the only
    thing it does is one write to its sink, of the text
    ["...downloading {description}...\n"], whose only line feed besides
    those of the description is its last character; the widgets and the
    other sinks stay as they were.  [update_to], [refresh] and [close]
    return and leave the whole store as it was. *)
Theorem QuietProgressBar_writes_once (desc : string) (io : nat)
    (kwargs : option (list nat)) (w : world) :
  exists (self : QuietProgressBar) (w1 : world),
    QuietProgressBar_init desc io kwargs w = (inr self, w1) /\
    quiet_description self = desc /\
    (forall sink,
       written w1 sink
       = if decide (sink = io)
         then written w io ++ ["...downloading " +:+ desc +:+ "..." +:+ nl]
         else written w sink) /\
    heap w1 = heap w /\
    count_nl ("...downloading " +:+ desc +:+ "..." +:+ nl)
    = count_nl desc + 1 /\
    (forall fraction w',
       QuietProgressBar_update_to self fraction w' = (inr tt, w')) /\
    (forall w', QuietProgressBar_refresh self w' = (inr tt, w')) /\
    (forall w', QuietProgressBar_close self w' = (inr tt, w')).
Proof.
  eexists _, _. split; [reflexivity|]. simpl.
  split; [reflexivity|]. split; [|split; [reflexivity|split]].
  - intros sink. unfold written at 1. simpl. case_decide as Hs.
    + subst sink. now rewrite lookup_insert_eq.
    + now rewrite lookup_insert_ne by congruence.
  - rewrite !count_nl_append. simpl. lia.
  - repeat split.
Qed.

(** A quiet bar on a fresh sink, as a run. *)
Example QuietProgressBar_run :
  let '(_, w1) := QuietProgressBar_init "numpy" 7 None two_widgets in
  written w1 7 = ["...downloading numpy..." +:+ nl] /\ heap w1 = heap two_widgets.
Proof. split; reflexivity. Qed.

(** ** [progress_bar] *)

(** C7.  [progress_bar] looks at [context.quiet] and at nothing else.
    When it is set, the result is the [QuietProgressBar] built from the
    description and the sink; when it is not, the outcome is that of the
    constructor of [RichProgressBar] on the same description, sink and
    keyword arguments: its exception, or the bar it returns. *)
Theorem progress_bar_dispatch (context : Context) (desc : string) (io : nat)
    (kwargs : option (list nat)) (w : world) :
  (quiet context = true ->
   exists (bar : QuietProgressBar) (w1 : world),
     QuietProgressBar_init desc io kwargs w = (inr bar, w1) /\
     progress_bar context desc io kwargs w = (inr (Quiet bar), w1) /\
     quiet_description bar = desc /\
     quiet_io_context_manager bar = io) /\
  (quiet context = false ->
   (forall e w1,
      RichProgressBar_init desc io kwargs w = (inl e, w1) ->
      progress_bar context desc io kwargs w = (inl e, w1)) /\
   (forall bar w1,
      RichProgressBar_init desc io kwargs w = (inr bar, w1) ->
      progress_bar context desc io kwargs w = (inr (Rich bar), w1) /\
      description bar = desc /\
      io_context_manager bar = io)).
Proof.
  unfold progress_bar. split; intros ->.
  - eexists _, _. repeat split.
  - split.
    + intros e w1 Hrun. unfold bind. now rewrite Hrun.
    + intros bar w1 Hrun. split; [unfold bind; now rewrite Hrun|].
      destruct kwargs as [managers|]; [|discriminate].
      destruct (RichProgressBar_init_cases desc io managers w)
        as [[_ Herr] | (l & p & _ & _ & Hok)]; rewrite Hrun in *.
      * discriminate.
      * injection Hok as -> _. split; reflexivity.
Qed.

Lemma progress_bar_dispatch_witness :
  (exists (bar : QuietProgressBar) (w1 : world),
     progress_bar quiet_ctx "numpy" 7 (Some [0; 2; 1]) two_widgets
     = (inr (Quiet bar), w1) /\
     quiet_description bar = "numpy" /\
     quiet_io_context_manager bar = 7) /\
  progress_bar base_ctx "numpy" 7 (Some [0; 2; 1]) two_widgets
  = (inr (Rich numpy_bar), started) /\
  progress_bar base_ctx "numpy" 7 (Some [0]) two_widgets
  = (inl (CondaError no_progress_bar), two_widgets).
Proof.
  split; [|split].
  - destruct (proj1 (progress_bar_dispatch quiet_ctx "numpy" 7
                       (Some [0; 2; 1]) two_widgets) eq_refl)
      as (bar & w1 & _ & Hrun & Hdesc & Hio).
    now exists bar, w1.
  - apply (proj2 (proj2 (progress_bar_dispatch base_ctx "numpy" 7
                           (Some [0; 2; 1]) two_widgets) eq_refl)).
    reflexivity.
  - apply (proj1 (proj2 (progress_bar_dispatch base_ctx "numpy" 7
                           (Some [0]) two_widgets) eq_refl)).
    reflexivity.
Defined.

(** The constructor on [two_widgets], as a run. *)
Example RichProgressBar_init_run :
  RichProgressBar_init "numpy" 7 (Some [0; 2; 1]) two_widgets
  = (inr numpy_bar, started)
  /\ task_of started numpy_bar = Some (fresh_task "numpy")
  /\ lookup_task started 1 0 = None.
Proof. repeat split; reflexivity. Qed.

Lemma RichProgressBar_update_to_one_witness :
  exists (w2 : world) (t2 : rich.Task),
    RichProgressBar_update_to numpy_bar 1 started = (inr tt, w2) /\
    lookup_task w2 2 0 = Some t2 /\
    (rich.task_completed t2 == 1)%Q /\
    rich.task_visible t2 = false.
Proof.
  destruct (RichProgressBar_update_to_one numpy_bar 1 started 2
              (fresh_task "numpy") eq_refl eq_refl (Qeq_refl 1))
    as (w1 & w2 & t1 & t2 & _ & _ & _ & _ & _ & Hrun & Ht2 & Hc & Hv).
  now exists w2, t2.
Defined.

Lemma RichProgressBar_update_to_other_witness :
  fst (RichProgressBar_update_to numpy_bar (1 # 2) started) = inr tt /\
  rich.task_visible
    <$> lookup_task (snd (RichProgressBar_update_to numpy_bar (1 # 2) started))
                    2 0
  = Some true /\
  rich.task_completed
    <$> lookup_task (snd (RichProgressBar_update_to numpy_bar (1 # 2) started))
                    2 0
  = Some (1 # 2).
Proof.
  assert (Hother : ~ (1 # 2 == 1)%Q) by discriminate.
  destruct (RichProgressBar_update_to_other numpy_bar (1 # 2) started Hother)
    as (Hvisible & _ & Htask & _ & _).
  destruct (Htask 2 (fresh_task "numpy") eq_refl eq_refl) as [Hret Hlook].
  split; [exact Hret|]. split.
  - rewrite Hvisible. reflexivity.
  - rewrite Hlook. reflexivity.
Defined.

(** * Further properties *)

(** ** The text of the renderings *)

Lemma append_assoc (s1 s2 s3 : string) :
  (s1 +:+ s2) +:+ s3 = s1 +:+ (s2 +:+ s3).
Proof.
  induction s1 as [|c s1 IH]; [reflexivity|].
  rewrite !append_cons. now rewrite IH.
Qed.

Lemma append_empty_r (s : string) : s +:+ "" = s.
Proof.
  induction s as [|c s IH]; [reflexivity|].
  rewrite append_cons. now rewrite IH.
Qed.

(** Joining parts of which the last is [last] terminates every part
    before it by the separator. *)
Lemma join_snoc (parts : list string) (last : string) :
  join nl (parts ++ [last]) = unlines parts +:+ last.
Proof.
  induction parts as [|part parts IH]; [reflexivity|].
  simpl. rewrite !append_assoc. rewrite <- IH.
  unfold join. simpl. now destruct (parts ++ [last]) eqn:Hparts;
    [destruct parts; discriminate|].
Qed.

Lemma unlines_app (parts1 parts2 : list string) :
  unlines (parts1 ++ parts2) = unlines parts1 +:+ unlines parts2.
Proof.
  induction parts1 as [|part parts1 IH]; [reflexivity|].
  simpl. rewrite IH. now rewrite !append_assoc.
Qed.

Lemma substring_append_l (s1 s2 : string) :
  String.substring 0 (String.length s1) (s1 +:+ s2) = s1.
Proof.
  induction s1 as [|c s1 IH].
  - simpl. now destruct s2.
  - rewrite append_cons. simpl. now rewrite IH.
Qed.

Lemma substring_append_r (s1 s2 : string) (n m : nat) :
  String.substring (String.length s1 + n) m (s1 +:+ s2)
  = String.substring n m s2.
Proof.
  induction s1 as [|c s1 IH]; [reflexivity|].
  rewrite append_cons. simpl. exact IH.
Qed.

Lemma substring_all (s : string) :
  String.substring 0 (String.length s) s = s.
Proof.
  rewrite <- (append_empty_r s) at 2. apply substring_append_l.
Qed.








Section EnvsListText.
Variable ROOT_ENV_NAME : string.
Variable paths_equal : string -> string -> bool.
Variable dirname : string -> string.
Variable basename : string -> string.
Variable context : Context.

Local Abbreviation name_of := (disp_env_name ROOT_ENV_NAME paths_equal dirname
                                             basename context).
Local Abbreviation row_of := (disp_env ROOT_ENV_NAME paths_equal dirname
                                       basename context).
Local Abbreviation render := (envs_list ROOT_ENV_NAME paths_equal dirname
                                        basename context).

(** X3.  The text [envs_list] returns is a line feed, the two head lines,
    every row, each of them followed by a line feed, and one more line
    feed; for the empty list it is the head alone with the closing line
    feed. *)
Theorem envs_list_text (data : list string) :
  render data
  = nl +:+ "# conda environments:" +:+ nl +:+ "#" +:+ nl +:+
    unlines (map row_of data) +:+ nl.
Proof.
  unfold envs_list. rewrite fold_left_append, join_snoc.
  rewrite unlines_app. simpl. now rewrite !append_assoc.
Qed.

(** X4.  A row of [envs_list] holds the display name in full at its
    start, however long the name is, and the prefix in full at its end,
    three columns after the name field; with a name of at most 20
    characters the marker is at column 21 and the prefix starts at
    column 23. *)
Theorem disp_env_layout (prefix : string) :
  String.substring 0 (String.length (name_of prefix)) (row_of prefix)
  = name_of prefix /\
  String.length (row_of prefix)
  = Nat.max 20 (String.length (name_of prefix)) + 3 + String.length prefix /\
  String.substring (Nat.max 20 (String.length (name_of prefix)) + 3)
                   (String.length prefix) (row_of prefix)
  = prefix /\
  (String.length (name_of prefix) <= 20 ->
   String.get 21 (row_of prefix)
   = Some (if is_active context prefix then "*"%char else " "%char) /\
   String.substring 23 (String.length prefix) (row_of prefix) = prefix).
Proof.
  unfold disp_env.
  set (name := name_of prefix).
  pose proof (length_format_left 20 name) as Hfield.
  assert (Hlen : String.length (disp_env_active context prefix) = 1)
    by (unfold disp_env_active; now destruct (is_active context prefix)).
  assert (Hpath : forall n,
    n = Nat.max 20 (String.length name) + 3 ->
    String.substring n (String.length prefix)
      (format_left 20 name +:+ " " +:+ disp_env_active context prefix
       +:+ " " +:+ prefix) = prefix).
  { intros n ->. rewrite <- Hfield.
    rewrite substring_append_r.
    change (" " +:+ disp_env_active context prefix +:+ " " +:+ prefix)
      with (String " " (disp_env_active context prefix +:+ String " " prefix)).
    simpl String.substring at 1.
    replace 2 with (String.length (disp_env_active context prefix) + 1)
      by lia.
    rewrite substring_append_r. simpl. apply substring_all. }
  split; [|split; [|split]].
  - unfold format_left. rewrite append_assoc. apply substring_append_l.
  - rewrite !length_append, Hfield, Hlen. simpl. lia.
  - now apply Hpath.
  - intros Hname. split; [|apply Hpath; lia].
    replace 21 with (1 + String.length (format_left 20 name))
      by (rewrite Hfield; lia).
    rewrite <- append_correct2.
    unfold disp_env_active. now destruct (is_active context prefix).
Qed.
End EnvsListText.

Lemma disp_env_layout_witness :
  String.get 21 (posix_envs_row base_ctx "/opt/conda/envs/dev") = Some "*"%char
  /\ String.substring 23 19 (posix_envs_row base_ctx "/opt/conda/envs/dev")
     = "/opt/conda/envs/dev".
Proof.
  apply (proj2 (proj2 (proj2
    (disp_env_layout "base" posix_paths_equal posix_dirname posix_basename
       base_ctx "/opt/conda/envs/dev")))).
  vm_compute. lia.
Defined.

(** ** Runs of the widget calls *)

Lemma lookup_task_Some (w : world) (l task_id : nat) (t : rich.Task) :
  lookup_task w l task_id = Some t <->
  exists p, heap w !! l = Some (ObjProgress p)
            /\ rich.tasks p !! task_id = Some t.
Proof.
  unfold lookup_task. split.
  - destruct (heap w !! l) as [[p|]|]; try discriminate. eauto.
  - now intros (p & -> & Ht).
Qed.

Lemma lookup_task_put_task (w : world) (l : nat) (p : rich.Progress)
    (task_id : nat) (t : rich.Task) (l' id : nat) :
  heap w !! l = Some (ObjProgress p) ->
  lookup_task (put_task w l p task_id t) l' id
  = if decide (l' = l /\ id = task_id) then Some t
    else lookup_task w l' id.
Proof.
  intros Hp. unfold put_task. rewrite lookup_task_insert. simpl.
  destruct (decide (l' = l)) as [->|Hl].
  - destruct (decide (id = task_id)) as [->|Hid].
    + rewrite lookup_insert_eq. now rewrite decide_True by auto.
    + rewrite lookup_insert_ne by congruence.
      rewrite decide_False by tauto. unfold lookup_task. now rewrite Hp.
  - now rewrite decide_False by tauto.
Qed.

(** Setting a task twice is setting it to the second value. *)
Lemma put_task_twice (w : world) (l : nat) (p : rich.Progress)
    (task_id : nat) (t1 t2 : rich.Task) :
  put_task (put_task w l p task_id t1) l
           {| rich.tasks := <[task_id := t1]> (rich.tasks p);
              rich.task_index := rich.task_index p;
              rich.refreshes := rich.refreshes p |}
           task_id t2
  = put_task w l p task_id t2.
Proof.
  unfold put_task. simpl. now rewrite !insert_insert_eq.
Qed.

Lemma progress_update_run (w : world) (l : nat) (p : rich.Progress)
    (task_id : nat) (t : rich.Task) (completed : option Q)
    (visible : option bool) :
  heap w !! l = Some (ObjProgress p) ->
  rich.tasks p !! task_id = Some t ->
  progress_update l task_id completed visible w
  = (inr tt, put_task w l p task_id (rich.set_fields completed visible t)).
Proof.
  intros Hp Ht. unfold progress_update, call, rich.update.
  now rewrite Hp, Ht.
Qed.

Lemma progress_stop_task_run (w : world) (l : nat) (p : rich.Progress)
    (task_id : nat) (t : rich.Task) :
  heap w !! l = Some (ObjProgress p) ->
  rich.tasks p !! task_id = Some t ->
  progress_stop_task l task_id w
  = (inr tt, put_task w l p task_id (stopped_task t)).
Proof.
  intros Hp Ht. unfold progress_stop_task, call, rich.stop_task.
  now rewrite Hp, Ht.
Qed.

Lemma progress_stop_task_fail (w : world) (l task_id : nat) :
  lookup_task w l task_id = None ->
  exists e, progress_stop_task l task_id w = (inl e, w).
Proof.
  unfold lookup_task, progress_stop_task, call, rich.stop_task. intros Ht.
  destruct (heap w !! l) as [[p|]|] eqn:Hl; eauto.
  rewrite Ht. eauto.
Qed.

(** [update_to] on a bar whose widget holds its task. *)
Lemma RichProgressBar_update_to_run (self : RichProgressBar) (fraction : Q)
    (w : world) (l : nat) (p : rich.Progress) (t : rich.Task) :
  progress self = Some l ->
  heap w !! l = Some (ObjProgress p) ->
  rich.tasks p !! task self = Some t ->
  RichProgressBar_update_to self fraction w
  = (inr tt, put_task w l p (task self) (updated_task fraction t)).
Proof.
  intros Hl Hp Ht. unfold RichProgressBar_update_to, bind. rewrite Hl.
  rewrite (progress_update_run w l p (task self) t _ _ Hp Ht).
  unfold updated_task. destruct (Qeq_bool fraction 1); [|reflexivity].
  erewrite progress_update_run;
    [| apply lookup_insert_eq | apply lookup_insert_eq].
  now rewrite put_task_twice.
Qed.

(** [update_to] on a bar whose widget is set and does not hold its task. *)
Lemma RichProgressBar_update_to_fail (self : RichProgressBar) (fraction : Q)
    (w : world) (l : nat) :
  progress self = Some l ->
  lookup_task w l (task self) = None ->
  exists e, RichProgressBar_update_to self fraction w = (inl e, w).
Proof.
  intros Hl Ht. unfold RichProgressBar_update_to, bind. rewrite Hl.
  destruct (progress_update_fail w l (task self) (Some fraction) None Ht)
    as (e & -> & _).
  eauto.
Qed.

(** The three ways [update_to] runs. *)
Lemma RichProgressBar_update_to_cases (self : RichProgressBar) (fraction : Q)
    (w : world) :
  (progress self = None /\
   RichProgressBar_update_to self fraction w = (inr tt, w)) \/
  (exists l e, progress self = Some l /\
               lookup_task w l (task self) = None /\
               RichProgressBar_update_to self fraction w = (inl e, w)) \/
  (exists l p t,
     progress self = Some l /\ heap w !! l = Some (ObjProgress p) /\
     rich.tasks p !! task self = Some t /\
     RichProgressBar_update_to self fraction w
     = (inr tt, put_task w l p (task self) (updated_task fraction t))).
Proof.
  destruct (progress self) as [l|] eqn:Hl.
  - right. destruct (lookup_task w l (task self)) as [t|] eqn:Ht.
    + right. apply lookup_task_Some in Ht as (p & Hp & Ht).
      exists l, p, t. repeat (split; [assumption || reflexivity|]).
      now apply RichProgressBar_update_to_run.
    + left.
      destruct (RichProgressBar_update_to_fail self fraction w l Hl Ht)
        as [e He].
      now exists l, e.
  - left. split; [reflexivity|].
    unfold RichProgressBar_update_to. now rewrite Hl.
Qed.

(** The three ways [close] runs. *)
Lemma RichProgressBar_close_cases (self : RichProgressBar) (w : world) :
  (progress self = None /\ RichProgressBar_close self w = (inr tt, w)) \/
  (exists l e, progress self = Some l /\
               lookup_task w l (task self) = None /\
               RichProgressBar_close self w = (inl e, w)) \/
  (exists l p t,
     progress self = Some l /\ heap w !! l = Some (ObjProgress p) /\
     rich.tasks p !! task self = Some t /\
     RichProgressBar_close self w
     = (inr tt, put_task w l p (task self) (stopped_task t))).
Proof.
  unfold RichProgressBar_close.
  destruct (progress self) as [l|] eqn:Hl; [|now left].
  right. destruct (lookup_task w l (task self)) as [t|] eqn:Ht.
  - right. apply lookup_task_Some in Ht as (p & Hp & Ht).
    exists l, p, t. repeat (split; [assumption || reflexivity|]).
    now apply progress_stop_task_run.
  - left. destruct (progress_stop_task_fail w l (task self) Ht) as [e He].
    now exists l, e.
Qed.

(** The two ways [refresh] runs. *)
Lemma RichProgressBar_refresh_cases (self : RichProgressBar) (w : world) :
  (exists e, RichProgressBar_refresh self w = (inl e, w)) \/
  RichProgressBar_refresh self w = (inr tt, w) \/
  (exists l p,
     progress self = Some l /\ heap w !! l = Some (ObjProgress p) /\
     RichProgressBar_refresh self w
     = (inr tt, {| heap := <[l := ObjProgress (rich.refresh p)]> (heap w);
                   out := out w |})).
Proof.
  unfold RichProgressBar_refresh, progress_refresh, call.
  destruct (progress self) as [l|]; [|now right; left].
  destruct (heap w !! l) as [[p|]|] eqn:Hp; eauto.
  right. right. now exists l, p.
Qed.

(** ** The operations of a [RichProgressBar] on the store *)

(** X5.  An operation of the adapter that raises has changed nothing: the
    constructor of [RichProgressBar], [update_to], [close], [refresh] and
    [progress_bar] leave the store as they found it whenever they end in
    an exception.  In particular [update_to(1)] never stops between its
    two updates. *)
Theorem exceptions_leave_store (w : world) (e : exn) :
  (forall desc io kwargs,
     fst (RichProgressBar_init desc io kwargs w) = inl e ->
     snd (RichProgressBar_init desc io kwargs w) = w) /\
  (forall self fraction,
     fst (RichProgressBar_update_to self fraction w) = inl e ->
     snd (RichProgressBar_update_to self fraction w) = w) /\
  (forall self,
     fst (RichProgressBar_close self w) = inl e ->
     snd (RichProgressBar_close self w) = w) /\
  (forall self,
     fst (RichProgressBar_refresh self w) = inl e ->
     snd (RichProgressBar_refresh self w) = w) /\
  (forall context desc io kwargs,
     fst (progress_bar context desc io kwargs w) = inl e ->
     snd (progress_bar context desc io kwargs w) = w).
Proof.
  assert (Hinit : forall desc io kwargs,
    fst (RichProgressBar_init desc io kwargs w) = inl e ->
    snd (RichProgressBar_init desc io kwargs w) = w).
  { intros desc io [managers|]; [|reflexivity].
    destruct (RichProgressBar_init_cases desc io managers w)
      as [[_ ->] | (l & p & _ & _ & ->)]; [reflexivity | discriminate]. }
  split; [exact Hinit|]. split; [|split; [|split]].
  - intros self fraction.
    destruct (RichProgressBar_update_to_cases self fraction w)
      as [[_ ->] | [(l & e' & _ & _ & ->) | (l & p & t & _ & _ & _ & ->)]];
      [reflexivity | reflexivity | discriminate].
  - intros self.
    destruct (RichProgressBar_close_cases self w)
      as [[_ ->] | [(l & e' & _ & _ & ->) | (l & p & t & _ & _ & _ & ->)]];
      [reflexivity | reflexivity | discriminate].
  - intros self.
    destruct (RichProgressBar_refresh_cases self w)
      as [[e' ->] | [-> | (l & p & _ & _ & ->)]];
      [reflexivity | reflexivity | discriminate].
  - intros context desc io kwargs. unfold progress_bar.
    destruct (quiet context); [discriminate|].
    specialize (Hinit desc io kwargs). unfold bind.
    destruct (RichProgressBar_init desc io kwargs w) as [[e'|bar] w1];
      [|discriminate].
    simpl in *. intros [= ->]. auto.
Qed.

Lemma exceptions_leave_store_witness :
  snd (RichProgressBar_update_to stale_bar 1 two_widgets) = two_widgets /\
  snd (progress_bar base_ctx "numpy" 7 None two_widgets) = two_widgets.
Proof.
  split.
  - apply (proj1 (proj2 (exceptions_leave_store two_widgets KeyError))).
    reflexivity.
  - apply (proj2 (proj2 (proj2 (proj2
             (exceptions_leave_store two_widgets TypeError))))).
    reflexivity.
Defined.

Lemma updated_task_twice (f1 f2 : Q) (t : rich.Task) :
  updated_task f2 (updated_task f1 t)
  = {| rich.task_description := rich.task_description t;
       rich.task_total := rich.task_total t;
       rich.task_completed := f2;
       rich.task_visible :=
         if Qeq_bool f1 1 || Qeq_bool f2 1 then false
         else rich.task_visible t;
       rich.task_started := rich.task_started t;
       rich.task_stopped := rich.task_stopped t |}.
Proof.
  unfold updated_task. simpl.
  now destruct (Qeq_bool f1 1), (Qeq_bool f2 1).
Qed.

(** Two runs of [update_to] in a row on a bar whose widget holds its
    task. *)
Lemma RichProgressBar_update_to_twice (self : RichProgressBar) (f1 f2 : Q)
    (w : world) (l : nat) (p : rich.Progress) (t : rich.Task) :
  progress self = Some l ->
  heap w !! l = Some (ObjProgress p) ->
  rich.tasks p !! task self = Some t ->
  RichProgressBar_update_to self f2
    (put_task w l p (task self) (updated_task f1 t))
  = (inr tt, put_task w l p (task self) (updated_task f2 (updated_task f1 t))).
Proof.
  intros Hl Hp Ht.
  erewrite RichProgressBar_update_to_run;
    [| exact Hl | apply lookup_insert_eq | apply lookup_insert_eq].
  now rewrite put_task_twice.
Qed.

(** X6.  [update_to] is idempotent: a second call with the same fraction
    ends as the first did and leaves the store the first call left, on
    every bar and every store. *)
Theorem RichProgressBar_update_to_idempotent (self : RichProgressBar)
    (fraction : Q) (w : world) :
  RichProgressBar_update_to self fraction
    (snd (RichProgressBar_update_to self fraction w))
  = RichProgressBar_update_to self fraction w.
Proof.
  destruct (RichProgressBar_update_to_cases self fraction w)
    as [[_ Hrun] | [(l & e & _ & _ & Hrun)
                   | (l & p & t & Hl & Hp & Ht & Hrun)]];
    rewrite Hrun; simpl; try exact Hrun.
  rewrite (RichProgressBar_update_to_twice self fraction fraction w l p t
             Hl Hp Ht).
  rewrite updated_task_twice. unfold updated_task.
  now destruct (Qeq_bool fraction 1).
Qed.

(** X7.  Of two calls of [update_to] in a row the second decides the
    completed amount, and the task is hidden afterwards exactly when it
    was hidden before or one of the two fractions equals 1: a bar that
    has reached 1 stays hidden when it is updated to another fraction. *)
Theorem RichProgressBar_update_to_last_wins (self : RichProgressBar)
    (f1 f2 : Q) (w : world) (l : nat) (t : rich.Task)
    (Hprogress : progress self = Some l)
    (Htask : lookup_task w l (task self) = Some t) :
  exists (w1 w2 : world) (t2 : rich.Task),
    RichProgressBar_update_to self f1 w = (inr tt, w1) /\
    RichProgressBar_update_to self f2 w1 = (inr tt, w2) /\
    lookup_task w2 l (task self) = Some t2 /\
    rich.task_completed t2 = f2 /\
    (rich.task_visible t2 = false <->
     rich.task_visible t = false \/ (f1 == 1)%Q \/ (f2 == 1)%Q) /\
    rich.task_description t2 = rich.task_description t /\
    rich.task_total t2 = rich.task_total t /\
    (forall l' id, (l', id) <> (l, task self) ->
                   lookup_task w2 l' id = lookup_task w l' id).
Proof.
  apply lookup_task_Some in Htask as (p & Hp & Ht).
  exists (put_task w l p (task self) (updated_task f1 t)),
    (put_task w l p (task self) (updated_task f2 (updated_task f1 t))),
    (updated_task f2 (updated_task f1 t)).
  split; [now apply RichProgressBar_update_to_run|].
  split; [now apply RichProgressBar_update_to_twice|].
  split; [rewrite lookup_task_put_task by exact Hp;
          now rewrite decide_True by auto|].
  rewrite updated_task_twice. simpl.
  split; [reflexivity|]. split; [|split; [reflexivity|split; [reflexivity|]]].
  - rewrite <- !Qeq_bool_iff.
    destruct (Qeq_bool f1 1), (Qeq_bool f2 1); simpl;
      try (split; [auto | reflexivity]).
    split; [auto | intros [H | [H | H]]; [exact H | discriminate..]].
  - intros l' id Hne. rewrite lookup_task_put_task by exact Hp.
    rewrite decide_False; [reflexivity|]. intros [-> ->]. now apply Hne.
Qed.

Lemma RichProgressBar_update_to_last_wins_witness :
  exists (w1 w2 : world) (t2 : rich.Task),
    RichProgressBar_update_to numpy_bar 1 started = (inr tt, w1) /\
    RichProgressBar_update_to numpy_bar (1 # 2) w1 = (inr tt, w2) /\
    lookup_task w2 2 0 = Some t2 /\
    rich.task_completed t2 = 1 # 2 /\
    rich.task_visible t2 = false.
Proof.
  destruct (RichProgressBar_update_to_last_wins numpy_bar 1 (1 # 2) started 2
              (fresh_task "numpy") eq_refl eq_refl)
    as (w1 & w2 & t2 & H1 & H2 & Ht2 & Hc & Hv & _).
  exists w1, w2, t2. repeat (split; [assumption|]).
  apply Hv. right. left. reflexivity.
Defined.

(** [update_to] leaves every task but the bar's own as it was. *)
Lemma RichProgressBar_update_to_other_tasks (self : RichProgressBar)
    (fraction : Q) (w : world) (l' id : nat) :
  (Some l', id) <> (progress self, task self) ->
  lookup_task (snd (RichProgressBar_update_to self fraction w)) l' id
  = lookup_task w l' id.
Proof.
  intros Hne.
  destruct (RichProgressBar_update_to_cases self fraction w)
    as [[_ ->] | [(l & e & _ & _ & ->) | (l & p & t & Hl & Hp & _ & ->)]];
    try reflexivity.
  simpl. rewrite lookup_task_put_task by exact Hp.
  rewrite decide_False; [reflexivity|].
  intros [-> ->]. apply Hne. now rewrite Hl.
Qed.

(** X8.  No operation of a bar removes a task or shows a hidden task
    again: a task that is in some widget before [update_to], [close] or
    [refresh] is there afterwards with the description and the total it
    had; [update_to] keeps a hidden task hidden, [close] keeps the
    completed amount and the visibility, and [refresh] keeps the task as
    it is. *)
Theorem bar_operations_keep_tasks (self : RichProgressBar) (w : world)
    (l id : nat) (t : rich.Task) (Ht : lookup_task w l id = Some t) :
  (forall fraction,
     exists t',
       lookup_task (snd (RichProgressBar_update_to self fraction w)) l id
       = Some t' /\
       rich.task_description t' = rich.task_description t /\
       rich.task_total t' = rich.task_total t /\
       (rich.task_visible t = false -> rich.task_visible t' = false)) /\
  (exists t',
     lookup_task (snd (RichProgressBar_close self w)) l id = Some t' /\
     rich.task_description t' = rich.task_description t /\
     rich.task_total t' = rich.task_total t /\
     rich.task_completed t' = rich.task_completed t /\
     rich.task_visible t' = rich.task_visible t) /\
  lookup_task (snd (RichProgressBar_refresh self w)) l id = Some t.
Proof.
  split; [|split].
  - intros fraction.
    destruct (RichProgressBar_update_to_cases self fraction w)
      as [[_ ->] | [(l0 & e & _ & _ & ->)
                   | (l0 & p & t0 & Hl & Hp & Ht0 & ->)]];
      simpl; try (exists t; now repeat split).
    rewrite lookup_task_put_task by exact Hp.
    case_decide as Heq; [|exists t; now repeat split].
    destruct Heq as [-> ->].
    assert (t0 = t) as ->.
    { apply lookup_task_Some in Ht as (p' & Hp' & Ht'). congruence. }
    exists (updated_task fraction t). simpl. repeat split.
    intros ->. now destruct (Qeq_bool fraction 1).
  - destruct (RichProgressBar_close_cases self w)
      as [[_ ->] | [(l0 & e & _ & _ & ->)
                   | (l0 & p & t0 & Hl & Hp & Ht0 & ->)]];
      simpl; try (exists t; now repeat split).
    rewrite lookup_task_put_task by exact Hp.
    case_decide as Heq; [|exists t; now repeat split].
    destruct Heq as [-> ->].
    assert (t0 = t) as ->.
    { apply lookup_task_Some in Ht as (p' & Hp' & Ht'). congruence. }
    exists (stopped_task t). now repeat split.
  - destruct (RichProgressBar_refresh_cases self w)
      as [[e ->] | [-> | (l0 & p & _ & Hp & ->)]]; simpl; try exact Ht.
    rewrite lookup_task_insert. case_decide as Heq; [|exact Ht].
    subst l0. simpl. apply lookup_task_Some in Ht as (p' & Hp' & Ht').
    congruence.
Qed.

Lemma bar_operations_keep_tasks_witness :
  (exists t',
     lookup_task (snd (RichProgressBar_update_to numpy_bar (1 # 2) started))
                 2 0 = Some t' /\
     rich.task_description t' = "numpy" /\
     rich.task_total t' = Some 1%Q) /\
  lookup_task (snd (RichProgressBar_refresh numpy_bar started)) 2 0
  = Some (fresh_task "numpy").
Proof.
  destruct (bar_operations_keep_tasks numpy_bar started 2 0
              (fresh_task "numpy") eq_refl) as (Hupdate & _ & Hrefresh).
  split; [|exact Hrefresh].
  destruct (Hupdate (1 # 2)) as (t' & Ht' & Hd & Htot & _).
  exists t'. now repeat split.
Defined.

Lemma put_task_frame (w : world) (l : nat) (p : rich.Progress)
    (task_id : nat) (t : rich.Task) :
  out (put_task w l p task_id t) = out w /\
  forall l', l <> l' -> heap (put_task w l p task_id t) !! l' = heap w !! l'.
Proof.
  split; [reflexivity|]. intros l' Hne. simpl.
  now rewrite lookup_insert_ne.
Qed.

(** X9.  The operations of a bar reach no object but the bar's own
    widget: [update_to], [close] and [refresh] leave every other object of
    the store as it was, and on a bar without a widget they return
    without having done anything. *)
Theorem bar_operations_frame (self : RichProgressBar) (w : world) :
  (forall fraction l', progress self <> Some l' ->
     heap (snd (RichProgressBar_update_to self fraction w)) !! l'
     = heap w !! l') /\
  (forall l', progress self <> Some l' ->
     heap (snd (RichProgressBar_close self w)) !! l' = heap w !! l') /\
  (forall l', progress self <> Some l' ->
     heap (snd (RichProgressBar_refresh self w)) !! l' = heap w !! l') /\
  (progress self = None ->
   (forall fraction, RichProgressBar_update_to self fraction w = (inr tt, w))
   /\ RichProgressBar_close self w = (inr tt, w)
   /\ RichProgressBar_refresh self w = (inr tt, w)).
Proof.
  split; [|split; [|split]].
  - intros fraction l' Hne.
    destruct (RichProgressBar_update_to_cases self fraction w)
      as [[_ ->] | [(l & e & _ & _ & ->) | (l & p & t & Hl & _ & _ & ->)]];
      try reflexivity.
    apply (put_task_frame w l p (task self) (updated_task fraction t)).
    congruence.
  - intros l' Hne.
    destruct (RichProgressBar_close_cases self w)
      as [[_ ->] | [(l & e & _ & _ & ->) | (l & p & t & Hl & _ & _ & ->)]];
      try reflexivity.
    apply (put_task_frame w l p (task self) (stopped_task t)).
    congruence.
  - intros l' Hne.
    destruct (RichProgressBar_refresh_cases self w)
      as [[e ->] | [-> | (l & p & Hl & _ & ->)]]; try reflexivity.
    simpl. rewrite lookup_insert_ne; [reflexivity | congruence].
  - intros Hnone.
    unfold RichProgressBar_update_to, RichProgressBar_close,
      RichProgressBar_refresh.
    now rewrite Hnone.
Qed.

Lemma bar_operations_frame_witness :
  heap (snd (RichProgressBar_update_to numpy_bar 1 started)) !! 1
  = heap started !! 1 /\
  RichProgressBar_close
    {| description := "numpy"; io_context_manager := 7;
       progress := None; task := 0 |} started
  = (inr tt, started).
Proof.
  split.
  - apply (proj1 (bar_operations_frame numpy_bar started) 1%Q 1).
    discriminate.
  - apply (proj2 (proj2 (proj2 (bar_operations_frame
             {| description := "numpy"; io_context_manager := 7;
                progress := None; task := 0 |} started)))).
    reflexivity.
Defined.

(** X10.  [close] on a bar whose widget holds its task returns and marks
    the task stopped; the completed amount and the visibility stay as
    they were, so that closing a bar does not hide it, and no other task
    changes. *)
Theorem RichProgressBar_close_stops (self : RichProgressBar) (w : world)
    (l : nat) (t : rich.Task)
    (Hprogress : progress self = Some l)
    (Htask : lookup_task w l (task self) = Some t) :
  exists w' : world,
    RichProgressBar_close self w = (inr tt, w') /\
    lookup_task w' l (task self)
    = Some {| rich.task_description := rich.task_description t;
              rich.task_total := rich.task_total t;
              rich.task_completed := rich.task_completed t;
              rich.task_visible := rich.task_visible t;
              rich.task_started := true;
              rich.task_stopped := true |} /\
    (forall l' id, (l', id) <> (l, task self) ->
                   lookup_task w' l' id = lookup_task w l' id).
Proof.
  apply lookup_task_Some in Htask as (p & Hp & Ht).
  destruct (RichProgressBar_close_cases self w)
    as [[Hnone _] | [(l0 & e & Hl0 & Hmiss & _)
                    | (l0 & p0 & t0 & Hl0 & Hp0 & Ht0 & Hrun)]].
  - congruence.
  - rewrite Hprogress in Hl0. injection Hl0 as <-.
    unfold lookup_task in Hmiss. rewrite Hp in Hmiss. congruence.
  - rewrite Hprogress in Hl0. injection Hl0 as <-.
    rewrite Hp in Hp0. injection Hp0 as <-.
    rewrite Ht in Ht0. injection Ht0 as <-.
    exists (put_task w l p (task self) (stopped_task t)).
    split; [exact Hrun|]. split.
    + rewrite lookup_task_put_task by exact Hp.
      now rewrite decide_True by auto.
    + intros l' id Hne. rewrite lookup_task_put_task by exact Hp.
      rewrite decide_False; [reflexivity|].
      intros [-> ->]. now apply Hne.
Qed.

Lemma RichProgressBar_close_stops_witness :
  exists w' : world,
    RichProgressBar_close numpy_bar started = (inr tt, w') /\
    (rich.task_visible <$> lookup_task w' 2 0) = Some true /\
    (rich.task_stopped <$> lookup_task w' 2 0) = Some true.
Proof.
  destruct (RichProgressBar_close_stops numpy_bar started 2
              (fresh_task "numpy") eq_refl eq_refl)
    as (w' & Hrun & Ht & _).
  exists w'. split; [exact Hrun|].
  change (task numpy_bar) with 0 in Ht. now rewrite Ht.
Defined.

(** ** Task ids *)

Lemma wf_world_lookup (w : world) (l : nat) (p : rich.Progress) :
  wf_world w -> heap w !! l = Some (ObjProgress p) -> wf_progress p.
Proof. intros Hwf Hp. exact (Hwf l (ObjProgress p) Hp). Qed.

Lemma wf_world_insert (w : world) (l : nat) (p : rich.Progress) :
  wf_world w -> wf_progress p ->
  wf_world {| heap := <[l := ObjProgress p]> (heap w); out := out w |}.
Proof.
  intros Hwf Hp. unfold wf_world. simpl. now apply map_Forall_insert_2.
Qed.

Lemma wf_world_put_task (w : world) (l : nat) (p : rich.Progress)
    (task_id : nat) (t t' : rich.Task) :
  wf_world w -> heap w !! l = Some (ObjProgress p) ->
  rich.tasks p !! task_id = Some t ->
  wf_world (put_task w l p task_id t').
Proof.
  intros Hwf Hp Ht. apply wf_world_insert; [exact Hwf|].
  pose proof (wf_world_lookup w l p Hwf Hp) as Hwfp.
  unfold wf_progress in *. simpl.
  apply map_Forall_insert_2; [|exact Hwfp].
  exact (Hwfp task_id t Ht).
Qed.

Lemma wf_progress_add_task (desc : string) (total : Q) (p : rich.Progress) :
  wf_progress p -> wf_progress (snd (rich.add_task desc total p)).
Proof.
  unfold wf_progress. simpl. intros Hwf.
  apply map_Forall_insert_2; [lia|].
  eapply map_Forall_impl; [exact Hwf|]. simpl. intros; lia.
Qed.

(** The next task id of a widget is the id of none of its tasks. *)
Lemma wf_progress_fresh (p : rich.Progress) :
  wf_progress p -> rich.tasks p !! rich.task_index p = None.
Proof.
  intros Hwf. destruct (rich.tasks p !! rich.task_index p) as [t|] eqn:Ht;
    [|reflexivity].
  pose proof (Hwf _ _ Ht) as Hlt. simpl in Hlt. lia.
Qed.

Lemma wf_world_init (desc : string) (io : nat) (kwargs : option (list nat))
    (w : world) :
  wf_world w -> wf_world (snd (RichProgressBar_init desc io kwargs w)).
Proof.
  intros Hwf. destruct kwargs as [managers|]; [|exact Hwf].
  destruct (RichProgressBar_init_cases desc io managers w)
    as [[_ ->] | (l & p & _ & Hp & ->)]; [exact Hwf|].
  simpl. apply wf_world_insert; [exact Hwf|].
  apply wf_progress_add_task. now apply (wf_world_lookup w l).
Qed.

(** What the constructor does to the tasks of a store whose task ids are
    in order. *)
Lemma RichProgressBar_init_tasks (desc : string) (io : nat)
    (kwargs : option (list nat)) (w w1 : world) (self : RichProgressBar) :
  wf_world w ->
  RichProgressBar_init desc io kwargs w = (inr self, w1) ->
  exists l,
    progress self = Some l /\
    lookup_task w l (task self) = None /\
    lookup_task w1 l (task self) = Some (fresh_task desc) /\
    (forall l' id, (l', id) <> (l, task self) ->
                   lookup_task w1 l' id = lookup_task w l' id) /\
    out w1 = out w.
Proof.
  intros Hwf. destruct kwargs as [managers|]; [|discriminate].
  destruct (RichProgressBar_init_cases desc io managers w)
    as [[_ ->] | (l & p & _ & Hp & ->)]; [discriminate|].
  intros [= <- <-]. exists l. simpl.
  pose proof (wf_progress_fresh p (wf_world_lookup w l p Hwf Hp)) as Hfresh.
  split; [reflexivity|]. split; [|split; [|split; [|reflexivity]]].
  - unfold lookup_task. now rewrite Hp.
  - rewrite lookup_task_insert, decide_True by reflexivity.
    simpl. apply lookup_insert_eq.
  - intros l' id Hne. rewrite lookup_task_insert.
    case_decide as Heq; [|reflexivity]. subst l'. simpl.
    rewrite lookup_insert_ne by (intros <-; now apply Hne).
    unfold lookup_task. now rewrite Hp.
Qed.

(** X11.  The order of the task ids is an invariant of the store: when
    in every widget the ids of the tasks lie below the next id to hand
    out, they still do after the constructor of either bar, after
    [progress_bar], and after [update_to], [close] and [refresh] of a
    [RichProgressBar], whether the operation returns or raises. *)
Theorem wf_world_preserved (w : world) (Hwf : wf_world w) :
  (forall desc io kwargs,
     wf_world (snd (RichProgressBar_init desc io kwargs w))) /\
  (forall desc io kwargs,
     wf_world (snd (QuietProgressBar_init desc io kwargs w))) /\
  (forall context desc io kwargs,
     wf_world (snd (progress_bar context desc io kwargs w))) /\
  (forall self fraction,
     wf_world (snd (RichProgressBar_update_to self fraction w))) /\
  (forall self, wf_world (snd (RichProgressBar_close self w))) /\
  (forall self, wf_world (snd (RichProgressBar_refresh self w))).
Proof.
  split; [|split; [|split; [|split; [|split]]]].
  - intros desc io kwargs. now apply wf_world_init.
  - intros desc io kwargs. exact Hwf.
  - intros context desc io kwargs. unfold progress_bar.
    destruct (quiet context); [exact Hwf|].
    pose proof (wf_world_init desc io kwargs w Hwf) as Hinit.
    unfold bind.
    now destruct (RichProgressBar_init desc io kwargs w) as [[e|bar] w1].
  - intros self fraction.
    destruct (RichProgressBar_update_to_cases self fraction w)
      as [[_ ->] | [(l & e & _ & _ & ->) | (l & p & t & _ & Hp & Ht & ->)]];
      try exact Hwf.
    simpl. now apply (wf_world_put_task w l p (task self) t).
  - intros self.
    destruct (RichProgressBar_close_cases self w)
      as [[_ ->] | [(l & e & _ & _ & ->) | (l & p & t & _ & Hp & Ht & ->)]];
      try exact Hwf.
    simpl. now apply (wf_world_put_task w l p (task self) t).
  - intros self.
    destruct (RichProgressBar_refresh_cases self w)
      as [[e ->] | [-> | (l & p & _ & Hp & ->)]]; try exact Hwf.
    simpl. apply wf_world_insert; [exact Hwf|].
    exact (wf_world_lookup w l p Hwf Hp).
Qed.

Lemma wf_world_two_widgets : wf_world two_widgets.
Proof.
  refine (@bool_decide_unpack _ (wf_world_dec two_widgets) _).
  vm_compute. exact I.
Qed.

Lemma wf_world_preserved_witness :
  wf_world started /\
  wf_world (snd (RichProgressBar_update_to numpy_bar 1 two_widgets)).
Proof.
  destruct (wf_world_preserved two_widgets
              wf_world_two_widgets)
    as (Hinit & _ & _ & Hupdate & _).
  split; [exact (Hinit "numpy" 7 (Some [0; 2; 1])) | exact (Hupdate _ _)].
Defined.

(** X12.  On a store whose task ids are in order, the constructor of
    [RichProgressBar] only adds: the id of the bar's task was the id of
    no task of its widget before, afterwards it is the id of the new
    task, and every task that was in some widget is there unchanged. *)
Theorem RichProgressBar_init_adds_only (desc : string) (io : nat)
    (kwargs : option (list nat)) (w w1 : world) (self : RichProgressBar)
    (Hwf : wf_world w)
    (Hrun : RichProgressBar_init desc io kwargs w = (inr self, w1)) :
  exists l,
    progress self = Some l /\
    lookup_task w l (task self) = None /\
    lookup_task w1 l (task self) = Some (fresh_task desc) /\
    (forall l' id t, lookup_task w l' id = Some t ->
                     lookup_task w1 l' id = Some t).
Proof.
  destruct (RichProgressBar_init_tasks desc io kwargs w w1 self Hwf Hrun)
    as (l & Hl & Hnew & Hadded & Hkept & _).
  exists l. repeat (split; [assumption|]).
  intros l' id t Ht. rewrite Hkept; [exact Ht|].
  intros [= -> ->]. congruence.
Qed.

Lemma RichProgressBar_init_adds_only_witness :
  exists l,
    progress numpy_bar = Some l /\
    lookup_task two_widgets l (task numpy_bar) = None /\
    lookup_task started l (task numpy_bar) = Some (fresh_task "numpy") /\
    (forall l' id t, lookup_task two_widgets l' id = Some t ->
                     lookup_task started l' id = Some t).
Proof.
  exact (RichProgressBar_init_adds_only "numpy" 7 (Some [0; 2; 1])
           two_widgets started numpy_bar
           wf_world_two_widgets eq_refl).
Defined.

(** X13.  Two bars built one after the other on a store whose task ids
    are in order never share a task, also when they share a widget: the
    second constructor leaves the task of the first bar as it was built,
    and [update_to] on either bar leaves the task of the other alone. *)
Theorem two_bars_do_not_interfere (d1 d2 : string) (io1 io2 : nat)
    (k1 k2 : option (list nat)) (w w1 w2 : world) (b1 b2 : RichProgressBar)
    (Hwf : wf_world w)
    (Hfirst : RichProgressBar_init d1 io1 k1 w = (inr b1, w1))
    (Hsecond : RichProgressBar_init d2 io2 k2 w1 = (inr b2, w2)) :
  (progress b1, task b1) <> (progress b2, task b2) /\
  task_of w2 b1 = Some (fresh_task d1) /\
  task_of w2 b2 = Some (fresh_task d2) /\
  (forall fraction,
     task_of (snd (RichProgressBar_update_to b2 fraction w2)) b1
     = Some (fresh_task d1)) /\
  (forall fraction,
     task_of (snd (RichProgressBar_update_to b1 fraction w2)) b2
     = Some (fresh_task d2)).
Proof.
  destruct (RichProgressBar_init_tasks d1 io1 k1 w w1 b1 Hwf Hfirst)
    as (l1 & Hl1 & _ & Hadded1 & _ & _).
  assert (Hwf1 : wf_world w1).
  { pose proof (wf_world_init d1 io1 k1 w Hwf) as H.
    now rewrite Hfirst in H. }
  destruct (RichProgressBar_init_tasks d2 io2 k2 w1 w2 b2 Hwf1 Hsecond)
    as (l2 & Hl2 & Hnew2 & Hadded2 & Hkept2 & _).
  assert (Hne : (l1, task b1) <> (l2, task b2)).
  { intros [= -> Htask]. rewrite Htask in Hadded1. congruence. }
  assert (Hb1 : task_of w2 b1 = Some (fresh_task d1)).
  { unfold task_of. rewrite Hl1. now rewrite Hkept2. }
  assert (Hb2 : task_of w2 b2 = Some (fresh_task d2)).
  { unfold task_of. now rewrite Hl2. }
  split; [|split; [exact Hb1 | split; [exact Hb2 | split]]].
  - rewrite Hl1, Hl2. intros [= -> Htask]. now apply Hne; rewrite Htask.
  - intros fraction. unfold task_of in *. rewrite Hl1 in *.
    rewrite RichProgressBar_update_to_other_tasks; [exact Hb1|].
    rewrite Hl2. intros [= -> Htask]. now apply Hne; rewrite Htask.
  - intros fraction. unfold task_of in *. rewrite Hl2 in *.
    rewrite RichProgressBar_update_to_other_tasks; [exact Hb2|].
    rewrite Hl1. intros [= -> Htask]. now apply Hne; rewrite Htask.
Qed.

Lemma two_bars_do_not_interfere_witness :
  (progress numpy_bar, task numpy_bar) <> (progress scipy_bar, task scipy_bar)
  /\ task_of both_started numpy_bar = Some (fresh_task "numpy")
  /\ task_of (snd (RichProgressBar_update_to scipy_bar 1 both_started))
             numpy_bar
     = Some (fresh_task "numpy").
Proof.
  destruct (two_bars_do_not_interfere "numpy" "scipy" 7 7
              (Some [0; 2; 1]) (Some [2]) two_widgets started both_started
              numpy_bar scipy_bar wf_world_two_widgets eq_refl eq_refl)
    as (Hne & Hb1 & _ & Hupdate & _).
  split; [exact Hne|]. split; [exact Hb1 | exact (Hupdate 1%Q)].
Defined.

(** X14.  A bar that is built, driven to a fraction equal to 1 and closed:
    each step returns, and the bar's task ends with the description it
    was built with, a total of 1, the fraction as completed amount,
    hidden and stopped. *)
Theorem RichProgressBar_lifecycle (desc : string) (io : nat)
    (kwargs : option (list nat)) (w w1 : world) (self : RichProgressBar)
    (fraction : Q)
    (Hrun : RichProgressBar_init desc io kwargs w = (inr self, w1))
    (Hone : (fraction == 1)%Q) :
  exists w2 w3 : world,
    RichProgressBar_update_to self fraction w1 = (inr tt, w2) /\
    RichProgressBar_close self w2 = (inr tt, w3) /\
    task_of w3 self
    = Some {| rich.task_description := desc;
              rich.task_total := Some 1%Q;
              rich.task_completed := fraction;
              rich.task_visible := false;
              rich.task_started := true;
              rich.task_stopped := true |}.
Proof.
  destruct kwargs as [managers|]; [|discriminate].
  destruct (RichProgressBar_init_cases desc io managers w)
    as [[_ Herr] | (l & p & _ & Hp & Hok)]; rewrite Hrun in *;
    [discriminate|].
  injection Hok as -> ->.
  apply Qeq_bool_iff in Hone.
  eexists _, _. split; [|split].
  - apply (RichProgressBar_update_to_run _ fraction _ l);
      [reflexivity | apply lookup_insert_eq | apply lookup_insert_eq].
  - unfold RichProgressBar_close. simpl progress. simpl task.
    apply progress_stop_task_run; apply lookup_insert_eq.
  - unfold task_of. simpl progress. simpl task.
    unfold lookup_task, put_task. simpl heap.
    rewrite lookup_insert_eq. simpl. rewrite lookup_insert_eq.
    unfold stopped_task, updated_task. simpl. now rewrite Hone.
Qed.

Lemma RichProgressBar_lifecycle_witness :
  exists w2 w3 : world,
    RichProgressBar_update_to numpy_bar 1 started = (inr tt, w2) /\
    RichProgressBar_close numpy_bar w2 = (inr tt, w3) /\
    task_of w3 numpy_bar
    = Some {| rich.task_description := "numpy";
              rich.task_total := Some 1%Q;
              rich.task_completed := 1;
              rich.task_visible := false;
              rich.task_started := true;
              rich.task_stopped := true |}.
Proof.
  exact (RichProgressBar_lifecycle "numpy" 7 (Some [0; 2; 1]) two_widgets
           started numpy_bar 1 eq_refl (Qeq_refl 1)).
Defined.

(** ** The choice of the widget *)

Lemma select_progress_none_inv (w : world) (managers : list nat) :
  select_progress w managers None = None ->
  forall l, In l managers -> isinstance_Progress w l = false.
Proof.
  induction managers as [|x managers IH]; simpl; [tauto|].
  destruct (isinstance_Progress w x) eqn:Hx; [discriminate|].
  intros Hsel l [<- | Hl]; auto.
Qed.

Lemma select_progress_existsb (w : world) (managers : list nat) :
  existsb (isinstance_Progress w) managers = true <->
  exists l, select_progress w managers None = Some l.
Proof.
  induction managers as [|x managers IH]; simpl.
  - split; [discriminate | intros [l Hl]; discriminate].
  - destruct (isinstance_Progress w x); simpl; [|exact IH].
    split; eauto.
Qed.

(** X15.  When at most one of the context managers is a [Progress], as
    the constructor of [RichProgressBar] expects, their order does not
    matter: on every rearrangement of the list the constructor ends the
    same way and leaves the same store. *)
Theorem RichProgressBar_init_order_irrelevant (desc : string) (io : nat)
    (managers managers' : list nat) (w : world)
    (Hperm : Permutation managers managers')
    (Hunique : forall l l',
       In l managers -> In l' managers ->
       isinstance_Progress w l = true -> isinstance_Progress w l' = true ->
       l = l') :
  RichProgressBar_init desc io (Some managers) w
  = RichProgressBar_init desc io (Some managers') w.
Proof.
  assert (Hsel : select_progress w managers None
                 = select_progress w managers' None).
  { destruct (select_progress w managers None) as [l|] eqn:H1;
      destruct (select_progress w managers' None) as [l'|] eqn:H2;
      try reflexivity.
    - apply select_progress_some in H1 as [Hin1 Hl1].
      apply select_progress_some in H2 as [Hin2 Hl2].
      f_equal. apply Hunique; auto.
      now apply (Permutation_in _ (Permutation_sym Hperm)).
    - apply select_progress_some in H1 as [Hin1 Hl1].
      pose proof (select_progress_none_inv w managers' H2 l
                    (Permutation_in _ Hperm Hin1)).
      congruence.
    - apply select_progress_some in H2 as [Hin2 Hl2].
      pose proof (select_progress_none_inv w managers H1 l'
                    (Permutation_in _ (Permutation_sym Hperm) Hin2)).
      congruence. }
  unfold RichProgressBar_init, bind. now rewrite Hsel.
Qed.

Lemma RichProgressBar_init_order_irrelevant_witness :
  RichProgressBar_init "numpy" 7 (Some [0; 3; 2]) two_widgets
  = RichProgressBar_init "numpy" 7 (Some [2; 0; 3]) two_widgets.
Proof.
  apply (RichProgressBar_init_order_irrelevant "numpy" 7 [0; 3; 2] [2; 0; 3]
           two_widgets).
  - change [2; 0; 3] with ([2] ++ [0; 3]).
    change [0; 3; 2] with ([0; 3] ++ [2]). apply Permutation_app_comm.
  - intros l l' [<- | [<- | [<- | []]]] [<- | [<- | [<- | []]]];
      try reflexivity; discriminate.
Defined.

(** ** [progress_bar], when it returns *)

(** X16.  [progress_bar] returns a bar exactly when the host is quiet or
    the keyword arguments hold a list of context managers with a
    [Progress] in it.  A host that is not quiet gets a [TypeError] when
    the list is left out and a [CondaError] when the list has no
    [Progress], and the store is then as it was. *)
Theorem progress_bar_returns_iff (context : Context) (desc : string)
    (io : nat) (kwargs : option (list nat)) (w : world) :
  ((exists bar w1, progress_bar context desc io kwargs w = (inr bar, w1)) <->
   quiet context = true \/
   exists managers, kwargs = Some managers /\
                    existsb (isinstance_Progress w) managers = true) /\
  (quiet context = false -> kwargs = None ->
   progress_bar context desc io kwargs w = (inl TypeError, w)) /\
  (quiet context = false ->
   forall managers, kwargs = Some managers ->
     existsb (isinstance_Progress w) managers = false ->
     progress_bar context desc io kwargs w
     = (inl (CondaError no_progress_bar), w)).
Proof.
  unfold progress_bar. destruct (quiet context).
  - split; [|split; discriminate].
    split; [now left|]. intros _. now eexists _, _.
  - assert (Hrun : forall managers,
      existsb (isinstance_Progress w) managers = false ->
      RichProgressBar_init desc io (Some managers) w
      = (inl (CondaError no_progress_bar), w)).
    { intros managers Hnone.
      destruct (RichProgressBar_init_cases desc io managers w)
        as [[_ ->] | (l & p & Hsel & _ & _)]; [reflexivity|].
      assert (existsb (isinstance_Progress w) managers = true)
        by (apply select_progress_existsb; eauto).
      congruence. }
    split; [|split].
    + split.
      * intros (bar & w1 & Hbar). right.
        destruct kwargs as [managers|]; [|discriminate].
        exists managers. split; [reflexivity|].
        destruct (existsb (isinstance_Progress w) managers) eqn:Hex;
          [reflexivity|].
        unfold bind in Hbar. now rewrite (Hrun managers Hex) in Hbar.
      * intros [Hq | (managers & -> & Hex)]; [discriminate|].
        apply select_progress_existsb in Hex as [l Hsel].
        destruct (RichProgressBar_init_cases desc io managers w)
          as [[Hnone _] | (l' & p & _ & _ & Hok)]; [congruence|].
        unfold bind. rewrite Hok. now eexists _, _.
    + now intros _ ->.
    + intros _ managers -> Hex. unfold bind. now rewrite (Hrun managers Hex).
Qed.

Lemma progress_bar_returns_iff_witness :
  (exists bar w1,
     progress_bar base_ctx "numpy" 7 (Some [0; 2; 1]) two_widgets
     = (inr bar, w1)) /\
  progress_bar base_ctx "numpy" 7 None two_widgets = (inl TypeError, two_widgets)
  /\ progress_bar base_ctx "numpy" 7 (Some [0; 3]) two_widgets
     = (inl (CondaError no_progress_bar), two_widgets).
Proof.
  split; [|split].
  - apply (proj1 (progress_bar_returns_iff base_ctx "numpy" 7
                    (Some [0; 2; 1]) two_widgets)).
    right. exists [0; 2; 1]. split; reflexivity.
  - now apply (proj1 (proj2 (progress_bar_returns_iff base_ctx "numpy" 7
                               None two_widgets))).
  - now apply (proj2 (proj2 (progress_bar_returns_iff base_ctx "numpy" 7
                               (Some [0; 3]) two_widgets)) eq_refl [0; 3]).
Defined.

(** ** Several quiet bars *)

(** X17.  Quiet bars built one after the other leave their lines in the
    order they were built: on a shared sink the line of the second bar
    follows the line of the first, on two sinks each sink gets the line
    of its bar, and no widget is touched. *)
Theorem QuietProgressBar_lines_in_order (d1 d2 : string) (io1 io2 : nat)
    (k1 k2 : option (list nat)) (w : world) :
  exists (b1 b2 : QuietProgressBar) (w1 w2 : world),
    QuietProgressBar_init d1 io1 k1 w = (inr b1, w1) /\
    QuietProgressBar_init d2 io2 k2 w1 = (inr b2, w2) /\
    heap w2 = heap w /\
    (io1 = io2 ->
     written w2 io1
     = written w io1 ++ ["...downloading " +:+ d1 +:+ "..." +:+ nl;
                         "...downloading " +:+ d2 +:+ "..." +:+ nl]) /\
    (io1 <> io2 ->
     written w2 io1
     = written w io1 ++ ["...downloading " +:+ d1 +:+ "..." +:+ nl] /\
     written w2 io2
     = written w io2 ++ ["...downloading " +:+ d2 +:+ "..." +:+ nl]) /\
    (forall sink, sink <> io1 -> sink <> io2 ->
                  written w2 sink = written w sink).
Proof.
  eexists _, _, _, _. split; [reflexivity|]. split; [reflexivity|].
  unfold written. simpl. split; [reflexivity|]. split; [|split].
  - intros <-. rewrite !lookup_insert_eq. simpl.
    now rewrite <- app_assoc.
  - intros Hne. rewrite lookup_insert_ne by congruence.
    rewrite !lookup_insert_eq. simpl.
    now rewrite lookup_insert_ne by congruence.
  - intros sink H1 H2. now rewrite !lookup_insert_ne by congruence.
Qed.

Lemma QuietProgressBar_lines_in_order_witness :
  exists (b1 b2 : QuietProgressBar) (w1 w2 : world),
    QuietProgressBar_init "numpy" 7 None two_widgets = (inr b1, w1) /\
    QuietProgressBar_init "scipy" 7 None w1 = (inr b2, w2) /\
    written w2 7 = ["...downloading numpy..." +:+ nl;
                    "...downloading scipy..." +:+ nl].
Proof.
  destruct (QuietProgressBar_lines_in_order "numpy" "scipy" 7 7 None None
              two_widgets)
    as (b1 & b2 & w1 & w2 & H1 & H2 & _ & Hsame & _).
  exists b1, b2, w1, w2. split; [exact H1|]. split; [exact H2|].
  exact (Hsame eq_refl).
Defined.

(** ** A bar whose task is gone *)

(** X18.  On a bar whose widget is there but no longer holds the bar's
    task, [update_to] and [close] raise [KeyError] and change nothing,
    while [refresh], which names no task, still returns and leaves every
    task as it was. *)
Theorem stale_task_raises_KeyError (self : RichProgressBar) (w : world)
    (l : nat) (p : rich.Progress)
    (Hprogress : progress self = Some l)
    (Hwidget : heap w !! l = Some (ObjProgress p))
    (Hgone : rich.tasks p !! task self = None) :
  (forall fraction,
     RichProgressBar_update_to self fraction w = (inl KeyError, w)) /\
  RichProgressBar_close self w = (inl KeyError, w) /\
  exists w' : world,
    RichProgressBar_refresh self w = (inr tt, w') /\
    forall l' id, lookup_task w' l' id = lookup_task w l' id.
Proof.
  split; [|split].
  - intros fraction.
    unfold RichProgressBar_update_to, bind, progress_update, call,
      rich.update.
    now rewrite Hprogress, Hwidget, Hgone.
  - unfold RichProgressBar_close, progress_stop_task, call, rich.stop_task.
    now rewrite Hprogress, Hwidget, Hgone.
  - unfold RichProgressBar_refresh, progress_refresh, call.
    rewrite Hprogress, Hwidget. eexists. split; [reflexivity|].
    intros l' id. rewrite lookup_task_insert.
    case_decide as Heq; [|reflexivity]. subst l'.
    unfold lookup_task. now rewrite Hwidget.
Qed.

Lemma stale_task_raises_KeyError_witness :
  RichProgressBar_update_to stale_bar (1 # 2) two_widgets
  = (inl KeyError, two_widgets) /\
  RichProgressBar_close stale_bar two_widgets = (inl KeyError, two_widgets).
Proof.
  destruct (stale_task_raises_KeyError stale_bar two_widgets 1 empty_progress
              eq_refl eq_refl eq_refl) as (Hupdate & Hclose & _).
  split; [exact (Hupdate (1 # 2)) | exact Hclose].
Defined.
